(** * WIPERRtube drop and flight model ([freefall.py])

    The script is one linear pass over module-level variables: two blocks of
    parameters, a chain of calculated parameters, the deceleration loop, and
    the classification of the flight.  Every number in it is a Python
    [float], that is an IEEE-754 binary64 value, so the script is embedded
    over Rocq's primitive floats.  The loop and the classification are
    written over an interface of the arithmetic they use; what is proved
    from the control flow alone holds for any arithmetic, and what depends
    on the numbers is proved for binary64, from the specification of its
    operations. *)

From Stdlib Require Import String.
From Stdlib Require Import ZArith Bool List Lia.
From Stdlib Require Import PrimFloat.
From Corelib Require Import SpecFloat FloatOps FloatAxioms.
Import ListNotations.

Set Warnings "-inexact-float".

(** ** Exceptions and the error monad *)

(** The built-in exceptions the script's operations can raise. *)
Inductive exn : Type :=
  | ZeroDivisionError   (* [x / y] with [y == 0] *)
  | ValueError          (* [math.sqrt] outside its domain *)
  | OverflowError       (* [x ** 2] out of range *)
  | NameError.          (* a variable read before any assignment *)

Definition exn_name (e : exn) : string :=
  match e with
  | ZeroDivisionError => "ZeroDivisionError"
  | ValueError => "ValueError"
  | OverflowError => "OverflowError"
  | NameError => "NameError"
  end.

Definition res (A : Type) : Type := (exn + A)%type.

Definition ret {A : Type} (a : A) : res A := inr a.

Definition raise {A : Type} (e : exn) : res A := inl e.

Definition bind {A B : Type} (m : res A) (k : A -> res B) : res B :=
  match m with
  | inl e => inl e
  | inr a => k a
  end.

Notation "x <- m ;; k" := (bind m (fun x => k))
  (at level 61, m at next level, right associativity).

(** ** The arithmetic the loop uses *)

Class Arith (F : Type) : Type := {
  zero : F;                 (* the literal [0] *)
  ten : F;                  (* the literal [10] *)
  add : F -> F -> F;
  sub : F -> F -> F;
  mul : F -> F -> F;
  quot : F -> F -> F;       (* the quotient, for a divisor that is not zero *)
  leb : F -> F -> bool;     (* [x <= y] *)
  ltb : F -> F -> bool;     (* [x < y] *)
  eqb : F -> F -> bool      (* [x == y] *)
}.

(** binary64, as CPython computes. *)
#[export] Instance float_arith : Arith float := {
  zero := 0%float;
  ten := 10%float;
  add := PrimFloat.add;
  sub := PrimFloat.sub;
  mul := PrimFloat.mul;
  quot := PrimFloat.div;
  leb := PrimFloat.leb;
  ltb := PrimFloat.ltb;
  eqb := PrimFloat.eqb
}.

Section Deceleration.

Context {F : Type} `{Arith F}.

(** [x / y]: Python raises on a zero divisor. *)
Definition py_div (x y : F) : res F :=
  if eqb y zero then raise ZeroDivisionError else ret (quot x y).

(** [max(0, x)]: the first argument is kept unless the second is greater. *)
Definition py_max0 (x : F) : F := if ltb zero x then x else zero.

(** The module-level names the loop reads and never assigns. *)
Record consts : Type := {
  wet_mass : F;
  dry_mass : F;
  g : F;
  total_thrust : F;
  total_water_mass_ejection_rate : F;
  dt : F;
  terminal_velocity : F;
  venting_altitude : F
}.

(** The names the loop assigns.  [current_mass] and [acceleration] have no
    binding before the loop body has reached lines 84 and 89. *)
Record vars : Type := {
  t : F;
  current_velocity : F;
  current_altitude : F;
  current_mass : option F;
  acceleration : option F;
  time_values : list F;
  altitude_values : list F;
  velocity_values : list F;
  water_remaining_values : list F;
  acceleration_values : list F
}.

Variable K : consts.

(** Lines 70-80. *)
Definition init : vars := {|
  t := zero;
  current_velocity := terminal_velocity K;
  current_altitude := venting_altitude K;
  current_mass := None;
  acceleration := None;
  time_values := [];
  altitude_values := [];
  velocity_values := [];
  water_remaining_values := [];
  acceleration_values := []
|}.

(** How control left the loop. *)
Inductive exit : Type :=
  | GroundReached     (* the [while] test failed, line 82 *)
  | WaterDepleted     (* [break], line 86 *)
  | HoverAchieved.    (* [break], line 94 *)

(** What one pass through the loop body (lines 83-100) does. *)
Inductive step_result : Type :=
  | Break (why : exit) (s : vars)
  | Continue (s : vars)
  | Raise (e : exn).

Definition body (s : vars) : step_result :=
  let t1 := add (t s) (dt K) in
  let m := sub (wet_mass K) (mul (total_water_mass_ejection_rate K) t1) in
  if leb m (dry_mass K) then
    Break WaterDepleted
      {| t := t1;
         current_velocity := current_velocity s;
         current_altitude := current_altitude s;
         current_mass := Some m;
         acceleration := acceleration s;
         time_values := time_values s;
         altitude_values := altitude_values s;
         velocity_values := velocity_values s;
         water_remaining_values := water_remaining_values s;
         acceleration_values := acceleration_values s |}
  else
    let net_force := sub (total_thrust K) (mul m (g K)) in
    match py_div net_force m with
    | inl e => Raise e
    | inr a =>
      let v := sub (current_velocity s) (mul a (dt K)) in
      let h := sub (current_altitude s) (mul v (dt K)) in
      if leb v zero then
        Break HoverAchieved
          {| t := t1;
             current_velocity := v;
             current_altitude := h;
             current_mass := Some m;
             acceleration := Some a;
             time_values := time_values s;
             altitude_values := altitude_values s;
             velocity_values := velocity_values s;
             water_remaining_values := water_remaining_values s;
             acceleration_values := acceleration_values s |}
      else
        Continue
          {| t := t1;
             current_velocity := v;
             current_altitude := h;
             current_mass := Some m;
             acceleration := Some a;
             time_values := time_values s ++ [t1];
             altitude_values := altitude_values s ++ [quot h ten];
             velocity_values := velocity_values s ++ [v];
             water_remaining_values :=
               water_remaining_values s
                 ++ [quot (py_max0 (sub m (dry_mass K))) ten];
             acceleration_values := acceleration_values s ++ [a] |}
    end.

(** The result of running the loop for at most [fuel] passes. *)
Inductive run : Type :=
  | Done (why : exit) (s : vars)
  | Raised (e : exn)
  | Unfinished (s : vars).

(** Lines 82-100. *)
Fixpoint loop (fuel : nat) (s : vars) : run :=
  if ltb zero (current_altitude s) then
    match fuel with
    | O => Unfinished s
    | S n =>
      match body s with
      | Break why s1 => Done why s1
      | Continue s1 => loop n s1
      | Raise e => Raised e
      end
    end
  else Done GroundReached s.

(** Line 102. *)
Definition water_remaining (s : vars) : res F :=
  match current_mass s with
  | None => raise NameError
  | Some m => ret (py_max0 (sub m (dry_mass K)))
  end.

(** Line 103, read as the condition of lines 107 and 120: the [and] yields
    [False] or [water_remaining], and a number is true when it is not zero. *)
Definition hover (s : vars) : res bool :=
  w <- water_remaining s ;;
  ret (leb zero (current_altitude s) && negb (eqb w zero)).

(** Line 118: the figure reported as peak deceleration. *)
Definition peak_deceleration (s : vars) : res F :=
  match acceleration s with
  | None => raise NameError
  | Some a => py_div a (g K)
  end.

(** The flight as the report sees it. *)
Inductive flight_outcome : Type := Hover | Impact.

Record report : Type := {
  why_stopped : exit;
  final : vars;
  remaining : F;
  outcome : flight_outcome;
  peak : F
}.

Inductive result : Type :=
  | Reported (r : report)
  | Failed (e : exn)
  | Running (s : vars).

(** Lines 70-118. *)
Definition simulate (fuel : nat) : result :=
  match loop fuel init with
  | Unfinished s => Running s
  | Raised e => Failed e
  | Done why s =>
    match (w <- water_remaining s ;;
           b <- hover s ;;
           p <- peak_deceleration s ;;
           ret {| why_stopped := why; final := s; remaining := w;
                  outcome := if b then Hover else Impact; peak := p |}) with
    | inl e => Failed e
    | inr r => Reported r
    end
  end.

(** The values lines 83, 84, 88-89, 90 and 91 compute in a pass that
    starts in state [s]. *)
Definition time_after (s : vars) : F := add (t s) (dt K).

Definition mass_after (s : vars) : F :=
  sub (wet_mass K) (mul (total_water_mass_ejection_rate K) (time_after s)).

Definition acceleration_after (s : vars) : F :=
  quot (sub (total_thrust K) (mul (mass_after s) (g K))) (mass_after s).

Definition velocity_after (s : vars) : F :=
  sub (current_velocity s) (mul (acceleration_after s) (dt K)).

Definition altitude_after (s : vars) : F :=
  sub (current_altitude s) (mul (velocity_after s) (dt K)).

(** The states in which control stands at the [while] test: [reached n s]
    when [s] is the state there after [n] full passes of the body. *)
Inductive reached : nat -> vars -> Prop :=
  | reached_init : reached 0 init
  | reached_pass (n : nat) (s s1 : vars) :
      reached n s ->
      ltb zero (current_altitude s) = true ->
      body s = Continue s1 ->
      reached (S n) s1.

(** [t] after [n] executions of [t += dt]. *)
Fixpoint elapsed (n : nat) : F :=
  match n with
  | O => zero
  | S k => add (elapsed k) (dt K)
  end.

(** The last element of a list, when there is one. *)
Fixpoint last_of (l : list F) : option F :=
  match l with
  | [] => None
  | x :: r => match r with [] => Some x | _ :: _ => last_of r end
  end.

(** Each element stands in relation [R] to the one that follows it. *)
Fixpoint chain (R : F -> F -> Prop) (l : list F) : Prop :=
  match l with
  | [] => True
  | x :: r => match r with [] => True | y :: _ => R x y /\ chain R r end
  end.

(** The state a run of the loop ends in, when it raises nothing. *)
Definition state_of (r : run) : option vars :=
  match r with
  | Done _ s => Some s
  | Unfinished s => Some s
  | Raised _ => None
  end.

End Deceleration.

Arguments consts F : clear implicits.
Arguments vars F : clear implicits.
Arguments run F : clear implicits.
Arguments step_result F : clear implicits.
Arguments report F : clear implicits.
Arguments result F : clear implicits.

(** ** The script over binary64 *)

Module Param.

(** The two parameter blocks (lines 16-40) and the time step (line 71).
    The script writes some of them as integer literals; each is below
    2^53 and meets a float in every operation, so it is read here as the
    binary64 value Python converts it to. *)
Record t : Type := {
  water_density : float;
  g : float;
  air_density : float;
  R_specific_air : float;
  standard_atmospheric_pressure_pa : float;
  tube_diameter : float;
  tube_height : float;
  pressure_tube_diameter : float;
  pressure_tube_headspace : float;
  head_space_pressure : float;
  dry_mass : float;
  paddle_width : float;
  paddle_length : float;
  number_of_paddles : float;
  vent_nozzle_diameter : float;
  number_of_vents : float;
  drop_altitude : float;
  venting_altitude : float;
  dt : float
}.

End Param.

Module Calc.

(** The calculated parameters (lines 24-25 and 43-69). *)
Record t : Type := {
  pressure_pa : float;
  pressure_atm : float;
  head_space_volume : float;
  tube_volume : float;
  water_volume : float;
  water_mass : float;
  wet_mass : float;
  paddle_area : float;
  drag_coefficient_area : float;
  terminal_velocity : float;
  water_exit_velocity : float;
  water_mass_ejection_rate : float;
  total_water_mass_ejection_rate : float;
  thrust_per_vent : float;
  total_thrust : float;
  time_to_venting : float
}.

End Calc.

Section Script.

Local Open Scope float_scope.

(** [math.pi]. *)
Definition pi : float := 3.141592653589793.

(** Line 23. *)
Definition temperature_kelvin : float := 273.15 + 15.

(** Line 53. *)
Definition drag_coefficient : float := 1.0.

(** [math.sqrt(x)]: a NaN result from an argument that is not NaN is a
    domain error. *)
Definition py_sqrt (x : float) : res float :=
  let r := PrimFloat.sqrt x in
  if is_nan r && negb (is_nan x) then raise ValueError else ret r.

(** [x ** 2]: the rounded square; an infinite result from a finite
    argument is a range error. *)
Definition py_sq (x : float) : res float :=
  let r := x * x in
  if is_infinity r && is_finite x then raise OverflowError else ret r.

(** Lines 24-69, in the order the script evaluates them. *)
Definition derive (p : Param.t) : res Calc.t :=
  let pressure_pa :=
    Param.air_density p * Param.R_specific_air p * temperature_kelvin in
  pressure_atm <-
    py_div pressure_pa (Param.standard_atmospheric_pressure_pa p) ;;
  r_head <- py_sq (Param.pressure_tube_diameter p / 2) ;;
  let head_space_volume := pi * r_head * Param.pressure_tube_headspace p in
  r_tube <- py_sq (Param.tube_diameter p / 2) ;;
  let tube_volume := pi * r_tube * Param.tube_height p in
  let water_volume := tube_volume - head_space_volume in
  let water_mass := water_volume * Param.water_density p in
  let wet_mass := Param.dry_mass p + water_mass in
  let paddle_area :=
    Param.paddle_width p * Param.paddle_length p * Param.number_of_paddles p in
  r_drag <- py_sq (Param.tube_diameter p / 2) ;;
  let drag_coefficient_area := paddle_area + pi * r_drag in
  q_term <-
    py_div (2 * wet_mass * Param.g p)
           (Param.air_density p * drag_coefficient * drag_coefficient_area) ;;
  terminal_velocity <- py_sqrt q_term ;;
  q_exit <- py_div (2 * Param.head_space_pressure p) (Param.water_density p) ;;
  water_exit_velocity <- py_sqrt q_exit ;;
  r_vent <- py_sq (Param.vent_nozzle_diameter p / 2) ;;
  let water_mass_ejection_rate :=
    pi * r_vent * water_exit_velocity * Param.water_density p in
  let total_water_mass_ejection_rate :=
    water_mass_ejection_rate * Param.number_of_vents p in
  let thrust_per_vent := water_mass_ejection_rate * water_exit_velocity in
  let total_thrust := thrust_per_vent * Param.number_of_vents p in
  time_to_venting <-
    py_div (Param.drop_altitude p - Param.venting_altitude p)
           (0.5 * terminal_velocity) ;;
  ret {| Calc.pressure_pa := pressure_pa;
         Calc.pressure_atm := pressure_atm;
         Calc.head_space_volume := head_space_volume;
         Calc.tube_volume := tube_volume;
         Calc.water_volume := water_volume;
         Calc.water_mass := water_mass;
         Calc.wet_mass := wet_mass;
         Calc.paddle_area := paddle_area;
         Calc.drag_coefficient_area := drag_coefficient_area;
         Calc.terminal_velocity := terminal_velocity;
         Calc.water_exit_velocity := water_exit_velocity;
         Calc.water_mass_ejection_rate := water_mass_ejection_rate;
         Calc.total_water_mass_ejection_rate := total_water_mass_ejection_rate;
         Calc.thrust_per_vent := thrust_per_vent;
         Calc.total_thrust := total_thrust;
         Calc.time_to_venting := time_to_venting |}.

(** What the loop reads, from the parameters and the calculated values. *)
Definition consts_of (p : Param.t) (c : Calc.t) : consts float := {|
  wet_mass := Calc.wet_mass c;
  dry_mass := Param.dry_mass p;
  g := Param.g p;
  total_thrust := Calc.total_thrust c;
  total_water_mass_ejection_rate := Calc.total_water_mass_ejection_rate c;
  dt := Param.dt p;
  terminal_velocity := Calc.terminal_velocity c;
  venting_altitude := Param.venting_altitude p
|}.

(** The script up to its report (lines 16-118), its loop cut off after
    [fuel] passes. *)
Definition program (p : Param.t) (fuel : nat) : res (result float) :=
  c <- derive p ;;
  ret (simulate (consts_of p c) fuel).

(** The parameters as the script sets them. *)
Definition default : Param.t := {|
  Param.water_density := 1000;
  Param.g := 9.80665;
  Param.air_density := 1.0582;
  Param.R_specific_air := 287.05;
  Param.standard_atmospheric_pressure_pa := 101325;
  Param.tube_diameter := 0.75;
  Param.tube_height := 1.75;
  Param.pressure_tube_diameter := 0.5;
  Param.pressure_tube_headspace := 0.5;
  Param.head_space_pressure := 2600000;
  Param.dry_mass := 68;
  Param.paddle_width := 0.4;
  Param.paddle_length := 0.6;
  Param.number_of_paddles := 4;
  Param.vent_nozzle_diameter := 0.02;
  Param.number_of_vents := 6;
  Param.drop_altitude := 3048;
  Param.venting_altitude := 340;
  Param.dt := 0.1
|}.

End Script.

(** The parameters of the script's own run, as the loop reads them: the
    values [derive default] computes (see [default_consts_derived]). *)
Definition default_consts : consts float := {|
  wet_mass := 742.9515466696821%float;
  dry_mass := 68%float;
  g := 9.80665%float;
  total_thrust := 9801.769079200154%float;
  total_water_mass_ejection_rate := 135.92608078966771%float;
  dt := 0.1%float;
  terminal_velocity := 99.113034088578715%float;
  venting_altitude := 340%float
|}.

(** [p] with its number of vents, venting altitude and tube height replaced. *)
Definition with_vents_altitude_height (p : Param.t) (vents altitude height : float)
  : Param.t := {|
  Param.water_density := Param.water_density p;
  Param.g := Param.g p;
  Param.air_density := Param.air_density p;
  Param.R_specific_air := Param.R_specific_air p;
  Param.standard_atmospheric_pressure_pa :=
    Param.standard_atmospheric_pressure_pa p;
  Param.tube_diameter := Param.tube_diameter p;
  Param.tube_height := height;
  Param.pressure_tube_diameter := Param.pressure_tube_diameter p;
  Param.pressure_tube_headspace := Param.pressure_tube_headspace p;
  Param.head_space_pressure := Param.head_space_pressure p;
  Param.dry_mass := Param.dry_mass p;
  Param.paddle_width := Param.paddle_width p;
  Param.paddle_length := Param.paddle_length p;
  Param.number_of_paddles := Param.number_of_paddles p;
  Param.vent_nozzle_diameter := Param.vent_nozzle_diameter p;
  Param.number_of_vents := vents;
  Param.drop_altitude := Param.drop_altitude p;
  Param.venting_altitude := altitude;
  Param.dt := Param.dt p
|}.

(** [p] with the gas constant, the standard pressure and the drop altitude
    replaced. *)
Definition with_display_inputs (p : Param.t) (gas standard drop : float)
  : Param.t := {|
  Param.water_density := Param.water_density p;
  Param.g := Param.g p;
  Param.air_density := Param.air_density p;
  Param.R_specific_air := gas;
  Param.standard_atmospheric_pressure_pa := standard;
  Param.tube_diameter := Param.tube_diameter p;
  Param.tube_height := Param.tube_height p;
  Param.pressure_tube_diameter := Param.pressure_tube_diameter p;
  Param.pressure_tube_headspace := Param.pressure_tube_headspace p;
  Param.head_space_pressure := Param.head_space_pressure p;
  Param.dry_mass := Param.dry_mass p;
  Param.paddle_width := Param.paddle_width p;
  Param.paddle_length := Param.paddle_length p;
  Param.number_of_paddles := Param.number_of_paddles p;
  Param.vent_nozzle_diameter := Param.vent_nozzle_diameter p;
  Param.number_of_vents := Param.number_of_vents p;
  Param.drop_altitude := drop;
  Param.venting_altitude := Param.venting_altitude p;
  Param.dt := Param.dt p
|}.

(** [p] with the air density and the paddles replaced. *)
Definition with_drag_inputs (p : Param.t) (air width length paddles : float)
  : Param.t := {|
  Param.water_density := Param.water_density p;
  Param.g := Param.g p;
  Param.air_density := air;
  Param.R_specific_air := Param.R_specific_air p;
  Param.standard_atmospheric_pressure_pa :=
    Param.standard_atmospheric_pressure_pa p;
  Param.tube_diameter := Param.tube_diameter p;
  Param.tube_height := Param.tube_height p;
  Param.pressure_tube_diameter := Param.pressure_tube_diameter p;
  Param.pressure_tube_headspace := Param.pressure_tube_headspace p;
  Param.head_space_pressure := Param.head_space_pressure p;
  Param.dry_mass := Param.dry_mass p;
  Param.paddle_width := width;
  Param.paddle_length := length;
  Param.number_of_paddles := paddles;
  Param.vent_nozzle_diameter := Param.vent_nozzle_diameter p;
  Param.number_of_vents := Param.number_of_vents p;
  Param.drop_altitude := Param.drop_altitude p;
  Param.venting_altitude := Param.venting_altitude p;
  Param.dt := Param.dt p
|}.

(** [p] with its nozzle diameter, venting altitude and time step replaced. *)
Definition with_nozzle_altitude_step (p : Param.t) (nozzle altitude step : float)
  : Param.t := {|
  Param.water_density := Param.water_density p;
  Param.g := Param.g p;
  Param.air_density := Param.air_density p;
  Param.R_specific_air := Param.R_specific_air p;
  Param.standard_atmospheric_pressure_pa :=
    Param.standard_atmospheric_pressure_pa p;
  Param.tube_diameter := Param.tube_diameter p;
  Param.tube_height := Param.tube_height p;
  Param.pressure_tube_diameter := Param.pressure_tube_diameter p;
  Param.pressure_tube_headspace := Param.pressure_tube_headspace p;
  Param.head_space_pressure := Param.head_space_pressure p;
  Param.dry_mass := Param.dry_mass p;
  Param.paddle_width := Param.paddle_width p;
  Param.paddle_length := Param.paddle_length p;
  Param.number_of_paddles := Param.number_of_paddles p;
  Param.vent_nozzle_diameter := nozzle;
  Param.number_of_vents := Param.number_of_vents p;
  Param.drop_altitude := Param.drop_altitude p;
  Param.venting_altitude := altitude;
  Param.dt := step
|}.

(** ** Configurations used below *)

Section Configurations.

Local Open Scope float_scope.

(** The script's parameters with the venting altitude at 5 m. *)
Definition low_start : Param.t :=
  with_vents_altitude_height default 6 5 1.75.

(** The script's parameters with the venting altitude set to the distance
    the first pass covers. *)
Definition grazing : Param.t :=
  with_vents_altitude_height default 6 9.8749810838146175 1.75.

(** The script's parameters with four vents and venting from 1000 m. *)
Definition four_vents : Param.t :=
  with_vents_altitude_height default 4 1000 1.75.

(** The script's parameters with a tube 0.2 m high, less than the
    headspace takes. *)
Definition short_tube : Param.t :=
  with_vents_altitude_height default 6 340 0.2.

(** The script's parameters with a nozzle of 5 mm, venting from 100 km. *)
Definition narrow : Param.t :=
  with_nozzle_altitude_step default 0.005 100000 0.1.


(** The script's parameters with a nozzle of 1e-161 m and a time step of
    1e-24 s. *)
Definition stalled : Param.t :=
  with_nozzle_altitude_step default 1e-161 340 1e-24.

End Configurations.

(** ** Constants of the loop used below *)

(** The script's constants, released on the ground. *)
Definition grounded : consts float := {|
  wet_mass := 742.9515466696821%float;
  dry_mass := 68%float;
  g := 9.80665%float;
  total_thrust := 9801.769079200154%float;
  total_water_mass_ejection_rate := 135.92608078966771%float;
  dt := 0.1%float;
  terminal_velocity := 99.113034088578715%float;
  venting_altitude := 0%float
|}.

(** The script's constants with no water on board. *)
Definition dry_tank : consts float := {|
  wet_mass := 68%float;
  dry_mass := 68%float;
  g := 9.80665%float;
  total_thrust := 9801.769079200154%float;
  total_water_mass_ejection_rate := 135.92608078966771%float;
  dt := 0.1%float;
  terminal_velocity := 99.113034088578715%float;
  venting_altitude := 340%float
|}.

(** The script's constants without gravity. *)
Definition weightless : consts float := {|
  wet_mass := 742.9515466696821%float;
  dry_mass := 68%float;
  g := 0%float;
  total_thrust := 9801.769079200154%float;
  total_water_mass_ejection_rate := 135.92608078966771%float;
  dt := 0.1%float;
  terminal_velocity := 99.113034088578715%float;
  venting_altitude := 340%float
|}.

(** The script's constants with a thrust of 600 N, below the dry weight. *)
Definition weak : consts float := {|
  wet_mass := 742.9515466696821%float;
  dry_mass := 68%float;
  g := 9.80665%float;
  total_thrust := 600%float;
  total_water_mass_ejection_rate := 135.92608078966771%float;
  dt := 0.1%float;
  terminal_velocity := 99.113034088578715%float;
  venting_altitude := 340%float
|}.

(** What the loop reads in the run of [narrow] (see [narrow_consts_derived]). *)
Definition narrow_consts : consts float := {|
  wet_mass := 742.9515466696821%float;
  dry_mass := 68%float;
  g := 9.80665%float;
  total_thrust := 612.61056745000963%float;
  total_water_mass_ejection_rate := 8.4953800493542317%float;
  dt := 0.1%float;
  terminal_velocity := 99.113034088578715%float;
  venting_altitude := 100000%float
|}.

(** What the loop reads in the run of [stalled] (see
    [stalled_consts_derived]). *)
Definition stalled_consts : consts float := {|
  wet_mass := 742.9515466696821%float;
  dry_mass := 68%float;
  g := 9.80665%float;
  total_thrust := 2.4668536532639767e-315%float;
  total_water_mass_ejection_rate := 3.4209105318047911e-317%float;
  dt := 1e-24%float;
  terminal_velocity := 99.113034088578715%float;
  venting_altitude := 340%float
|}.

(** A time that [t] cannot pass in the run of [stalled]: adding the time
    step to it gives it back. *)
Definition clock_bound : float := 2e-8%float.

(** The current mass of line 84 in pass [k], as a function of [k] alone. *)
Definition mass_at {F : Type} `{Arith F} (K : consts F) (k : nat) : F :=
  sub (wet_mass K) (mul (total_water_mass_ejection_rate K) (elapsed K k)).

(** [chain] for a relation given as a test. *)
Fixpoint chainb {F : Type} (R : F -> F -> bool) (l : list F) : bool :=
  match l with
  | [] => true
  | x :: r => match r with [] => true | y :: _ => R x y && chainb R r end
  end.

(** The states in which control stands at the [while] test in the first
    [fuel] passes of a run from [s]. *)
Fixpoint passes {F : Type} `{Arith F} (K : consts F) (fuel : nat) (s : vars F)
  : list (vars F) :=
  s :: match fuel with
       | O => []
       | S n =>
         if ltb zero (current_altitude s) then
           match body K s with
           | Continue s1 => passes K n s1
           | _ => []
           end
         else []
       end.

(** ** Values of floats *)

(** The value of a finite or zero float, in units of [2^-1074]. *)
Definition SV (f : spec_float) : Z :=
  match f with
  | S754_finite s m e => cond_Zopp s (Zpos m * 2 ^ (e + 1074))
  | _ => 0
  end.

(** A zero or a finite number. *)
Definition is_real (f : spec_float) : bool :=
  match f with
  | S754_finite _ _ _ | S754_zero _ => true
  | _ => false
  end.

(** The float [+0]. *)
Definition pzero : spec_float := S754_zero false.

(** What a pass of the run of [stalled] leaves as it is: the velocity and
    the altitude at their first values, [t] within its bound. *)
Definition idle (s : vars float) : Prop :=
  current_velocity s = terminal_velocity stalled_consts /\
  current_altitude s = venting_altitude stalled_consts /\
  PrimFloat.leb 0 (t s) = true /\ PrimFloat.leb (t s) clock_bound = true.

(** * Properties *)

(** ** One pass of the loop body, for any arithmetic *)

Section Passes.

Context {F : Type} `{Arith F}.
Variable K : consts F.

Lemma body_Continue (s s1 : vars F) :
  body K s = Continue s1 ->
  leb (mass_after K s) (dry_mass K) = false /\
  eqb (mass_after K s) zero = false /\
  leb (velocity_after K s) zero = false /\
  t s1 = time_after K s /\
  current_velocity s1 = velocity_after K s /\
  current_altitude s1 = altitude_after K s /\
  current_mass s1 = Some (mass_after K s) /\
  acceleration s1 = Some (acceleration_after K s) /\
  time_values s1 = time_values s ++ [time_after K s] /\
  altitude_values s1 = altitude_values s ++ [quot (altitude_after K s) ten] /\
  velocity_values s1 = velocity_values s ++ [velocity_after K s] /\
  water_remaining_values s1 =
    water_remaining_values s
      ++ [quot (py_max0 (sub (mass_after K s) (dry_mass K))) ten] /\
  acceleration_values s1 = acceleration_values s ++ [acceleration_after K s].
Proof.
  unfold body, py_div, raise, ret.
  fold (time_after K s). fold (mass_after K s).
  destruct (leb (mass_after K s) (dry_mass K)) eqn:Em; [discriminate|].
  destruct (eqb (mass_after K s) zero) eqn:Ez; [discriminate|].
  fold (acceleration_after K s). fold (velocity_after K s).
  fold (altitude_after K s).
  destruct (leb (velocity_after K s) zero) eqn:Ev; [discriminate|].
  intros [= <-]. cbn. repeat split; reflexivity.
Qed.

Lemma body_Depleted (s : vars F) :
  leb (mass_after K s) (dry_mass K) = true ->
  body K s =
    Break WaterDepleted
      {| t := time_after K s;
         current_velocity := current_velocity s;
         current_altitude := current_altitude s;
         current_mass := Some (mass_after K s);
         acceleration := acceleration s;
         time_values := time_values s;
         altitude_values := altitude_values s;
         velocity_values := velocity_values s;
         water_remaining_values := water_remaining_values s;
         acceleration_values := acceleration_values s |}.
Proof.
  intros Em. unfold body. fold (time_after K s). fold (mass_after K s).
  rewrite Em. reflexivity.
Qed.

Lemma body_Break (s s1 : vars F) (why : exit) :
  body K s = Break why s1 ->
  t s1 = time_after K s /\
  current_mass s1 = Some (mass_after K s) /\
  time_values s1 = time_values s /\
  altitude_values s1 = altitude_values s /\
  velocity_values s1 = velocity_values s /\
  water_remaining_values s1 = water_remaining_values s /\
  acceleration_values s1 = acceleration_values s /\
  ((why = WaterDepleted /\
    leb (mass_after K s) (dry_mass K) = true /\
    current_velocity s1 = current_velocity s /\
    current_altitude s1 = current_altitude s /\
    acceleration s1 = acceleration s)
   \/
   (why = HoverAchieved /\
    leb (mass_after K s) (dry_mass K) = false /\
    leb (velocity_after K s) zero = true /\
    current_velocity s1 = velocity_after K s /\
    current_altitude s1 = altitude_after K s /\
    acceleration s1 = Some (acceleration_after K s))).
Proof.
  unfold body, py_div, raise, ret.
  fold (time_after K s). fold (mass_after K s).
  destruct (leb (mass_after K s) (dry_mass K)) eqn:Em.
  - intros [= <- <-]. cbn. repeat split; try reflexivity.
    left. repeat split; reflexivity.
  - destruct (eqb (mass_after K s) zero) eqn:Ez; [discriminate|].
    fold (acceleration_after K s). fold (velocity_after K s).
    fold (altitude_after K s).
    destruct (leb (velocity_after K s) zero) eqn:Ev; [|discriminate].
    intros [= <- <-]. cbn. repeat split; try reflexivity.
    right. repeat split; reflexivity.
Qed.

(** Every result of the loop comes from a state reached at the [while]
    test: the test failed there, or the body left from there. *)
Lemma loop_from_reached (fuel n : nat) (s : vars F) :
  reached K n s ->
  match loop K fuel s with
  | Done why s1 =>
      exists k s0, reached K k s0 /\
        ((why = GroundReached /\ s1 = s0 /\
          ltb zero (current_altitude s0) = false)
         \/ (ltb zero (current_altitude s0) = true /\
             body K s0 = Break why s1))
  | Raised e =>
      exists k s0, reached K k s0 /\
        ltb zero (current_altitude s0) = true /\ body K s0 = Raise e
  | Unfinished s1 =>
      reached K (n + fuel) s1 /\ ltb zero (current_altitude s1) = true
  end.
Proof.
  revert n s. induction fuel as [|fuel IH]; intros n s R; cbn.
  - destruct (ltb zero (current_altitude s)) eqn:Eh.
    + rewrite Nat.add_0_r. auto.
    + exists n, s. auto.
  - destruct (ltb zero (current_altitude s)) eqn:Eh.
    + destruct (body K s) as [why s1|s1|e] eqn:Eb.
      * exists n, s. auto.
      * specialize (IH (S n) s1 (reached_pass K n s s1 R Eh Eb)).
        rewrite <- plus_n_Sm. exact IH.
      * exists n, s. auto.
    + exists n, s. auto.
Qed.

End Passes.

(** ** What holds at the [while] test, for any arithmetic *)

Section Reached.

Context {F : Type} `{Arith F}.
Variable K : consts F.

Lemma last_of_snoc (l : list F) (a : F) : last_of (l ++ [a]) = Some a.
Proof.
  induction l as [|x l IH]; [reflexivity|].
  cbn [app last_of]. destruct (l ++ [a]) eqn:E.
  - destruct l; discriminate.
  - exact IH.
Qed.

Lemma chain_snoc (R : F -> F -> Prop) (l : list F) (a : F) :
  chain R l ->
  (forall x, last_of l = Some x -> R x a) ->
  chain R (l ++ [a]).
Proof.
  induction l as [|x l IH]; intros C L; [exact I|].
  cbn [app chain]. destruct l as [|y l].
  - cbn. split; [apply L; reflexivity|exact I].
  - cbn [app]. cbn [app] in IH. destruct C as [Rxy C]. split; [exact Rxy|].
    apply IH; [exact C|]. intros z Lz. apply L. exact Lz.
Qed.

(** After [n] passes the five lists hold [n] entries each, the times are
    the successive values of [t], and the variables still hold what the
    last pass recorded. *)
Lemma reached_trace (n : nat) (s : vars F) :
  reached K n s ->
  t s = elapsed K n /\
  time_values s = map (elapsed K) (seq 1 n) /\
  length (altitude_values s) = n /\
  length (velocity_values s) = n /\
  length (water_remaining_values s) = n /\
  length (acceleration_values s) = n /\
  acceleration s = last_of (acceleration_values s) /\
  (n <> 0 ->
   last_of (time_values s) = Some (t s) /\
   last_of (velocity_values s) = Some (current_velocity s) /\
   last_of (altitude_values s) = Some (quot (current_altitude s) ten)).
Proof.
  induction 1 as [|n s s1 R IH Eh Eb].
  - cbn. repeat split; try reflexivity; congruence.
  - destruct IH as (It & Itv & Ia & Iv & Iw & Iac & Iacc & _).
    destruct (body_Continue K s s1 Eb)
      as (_ & _ & _ & Et & Ev & Ealt & _ & Eacc & Etv & Eav & Evv & Ewv & Eaccv).
    assert (Et1 : t s1 = elapsed K (S n)).
    { rewrite Et. unfold time_after. rewrite It. reflexivity. }
    repeat split.
    + exact Et1.
    + rewrite Etv, Itv, seq_S, map_app. cbn [map Nat.add].
      unfold time_after. rewrite It. reflexivity.
    + rewrite Eav, length_app, Ia. cbn. lia.
    + rewrite Evv, length_app, Iv. cbn. lia.
    + rewrite Ewv, length_app, Iw. cbn. lia.
    + rewrite Eaccv, length_app, Iac. cbn. lia.
    + rewrite Eacc, Eaccv, last_of_snoc. reflexivity.
    + rewrite Etv, last_of_snoc, Et. reflexivity.
    + rewrite Evv, last_of_snoc, Ev. reflexivity.
    + rewrite Eav, last_of_snoc, Ealt. reflexivity.
Qed.

(** The state a run ends in carries the lists of a state reached at the
    [while] test. *)
Lemma final_lists (fuel : nat) (s : vars F) :
  state_of (loop K fuel (init K)) = Some s ->
  exists k s0, reached K k s0 /\
    time_values s = time_values s0 /\
    altitude_values s = altitude_values s0 /\
    velocity_values s = velocity_values s0 /\
    water_remaining_values s = water_remaining_values s0 /\
    acceleration_values s = acceleration_values s0.
Proof.
  pose proof (loop_from_reached K fuel 0 (init K) (reached_init K)) as L.
  destruct (loop K fuel (init K)) as [why s1|e|s1]; cbn; intros [= <-].
  - destruct L as (k & s0 & R & [(_ & -> & _)|(_ & Eb)]).
    + exists k, s0. repeat split; auto.
    + exists k, s0. split; [exact R|].
      destruct (body_Break K s0 s1 why Eb) as (_ & _ & A & B & C & D & E & _).
      repeat split; assumption.
  - destruct L as (R & _). exists (0 + fuel), s1. repeat split; auto.
Qed.

End Reached.

(** ** Chains of tests *)

Lemma chainb_snoc {A : Type} (R : A -> A -> bool) (l : list A) (a : A) :
  chainb R l = true ->
  (forall x, last_of l = Some x -> R x a = true) ->
  chainb R (l ++ [a]) = true.
Proof.
  induction l as [|x l IH]; intros C L; [reflexivity|].
  cbn [app chainb]. destruct l as [|y l].
  - cbn. rewrite (L x eq_refl). reflexivity.
  - cbn [app]. cbn [app] in IH. cbn [chainb] in C.
    apply andb_true_iff in C. destruct C as [Rxy C].
    rewrite Rxy. cbn [andb]. apply IH; [exact C|].
    intros z Lz. apply L. exact Lz.
Qed.

Lemma chainb_map_seq {A : Type} (R : A -> A -> bool) (f : nat -> A)
    (a n : nat) :
  (forall k, R (f k) (f (S k)) = true) ->
  chainb R (map f (seq a n)) = true.
Proof.
  intros Step. revert a. induction n as [|n IH]; intros a; [reflexivity|].
  cbn [seq map chainb]. destruct n as [|n]; [reflexivity|].
  specialize (IH (S a)). cbn [seq map] in *.
  rewrite Step. exact IH.
Qed.

Lemma chainb_nth {A : Type} (R : A -> A -> bool) (l : list A) (i : nat)
    (x y : A) :
  chainb R l = true ->
  nth_error l i = Some x -> nth_error l (S i) = Some y -> R x y = true.
Proof.
  revert i. induction l as [|a l IH]; intros i C X Y; [destruct i; discriminate|].
  destruct l as [|b l]; [destruct i; discriminate|].
  cbn [chainb] in C. apply andb_true_iff in C. destruct C as [Rab C].
  destruct i as [|i].
  - cbn in X, Y. congruence.
  - exact (IH i C X Y).
Qed.

(** ** One pass that goes on, from its three tests *)

Lemma body_goes_on {F : Type} `{Arith F} (K : consts F) (s : vars F) :
  leb (mass_after K s) (dry_mass K) = false ->
  eqb (mass_after K s) zero = false ->
  leb (velocity_after K s) zero = false ->
  body K s =
    Continue
      {| t := time_after K s;
         current_velocity := velocity_after K s;
         current_altitude := altitude_after K s;
         current_mass := Some (mass_after K s);
         acceleration := Some (acceleration_after K s);
         time_values := time_values s ++ [time_after K s];
         altitude_values :=
           altitude_values s ++ [quot (altitude_after K s) ten];
         velocity_values := velocity_values s ++ [velocity_after K s];
         water_remaining_values :=
           water_remaining_values s
             ++ [quot (py_max0 (sub (mass_after K s) (dry_mass K))) ten];
         acceleration_values :=
           acceleration_values s ++ [acceleration_after K s] |}.
Proof.
  intros Em Ez Ev. unfold body, py_div, raise, ret.
  fold (time_after K s). fold (mass_after K s). rewrite Em, Ez.
  fold (acceleration_after K s). fold (velocity_after K s).
  fold (altitude_after K s). rewrite Ev. reflexivity.
Qed.

(** ** Runs and the states they pass through, for any arithmetic *)

Section Through.

Context {F : Type} `{Arith F}.
Variable K : consts F.

(** A run passes through every state reached at the [while] test. *)
Lemma reached_through (n : nat) (s : vars F) :
  reached K n s ->
  forall fuel : nat, loop K (n + fuel) (init K) = loop K fuel s.
Proof.
  induction 1 as [|n s s1 R IH Eh Eb]; intros fuel; [reflexivity|].
  replace (S n + fuel) with (n + S fuel) by lia.
  rewrite IH. cbn [loop]. rewrite Eh, Eb. reflexivity.
Qed.

(** A run that has ended is not changed by more fuel. *)
Lemma loop_more_fuel (fuel extra : nat) (s : vars F) :
  (forall s1, loop K fuel s <> Unfinished s1) ->
  loop K (fuel + extra) s = loop K fuel s.
Proof.
  revert s. induction fuel as [|fuel IH]; intros s N.
  - cbn [loop] in *. destruct (ltb zero (current_altitude s)) eqn:Eh.
    + exfalso. exact (N s eq_refl).
    + destruct extra; cbn [Nat.add loop]; rewrite Eh; reflexivity.
  - cbn [Nat.add loop] in *. destruct (ltb zero (current_altitude s)); [|reflexivity].
    destruct (body K s) as [why s1|s1|e]; try reflexivity.
    apply IH. exact N.
Qed.

(** A state reached in a run that ends is reached before the run ends,
    when a pass starts from it. *)
Lemma reached_before_end (fuel n : nat) (s : vars F) :
  (forall s1, loop K fuel (init K) <> Unfinished s1) ->
  reached K n s ->
  ltb zero (current_altitude s) = true ->
  n < fuel.
Proof.
  intros N R Eh.
  destruct (Nat.lt_ge_cases n fuel) as [L|G]; [exact L|exfalso].
  pose proof (reached_through n s R 0) as T. rewrite Nat.add_0_r in T.
  cbn [loop] in T. rewrite Eh in T.
  assert (E : loop K (fuel + (n - fuel)) (init K) = loop K fuel (init K))
    by (apply loop_more_fuel; exact N).
  replace (fuel + (n - fuel)) with n in E by lia.
  apply (N s). rewrite <- E. exact T.
Qed.

Lemma passes_next (fuel n : nat) (s0 s s1 : vars F) :
  nth_error (passes K fuel s0) n = Some s ->
  n < fuel ->
  ltb zero (current_altitude s) = true ->
  body K s = Continue s1 ->
  nth_error (passes K fuel s0) (S n) = Some s1.
Proof.
  revert n s0. induction fuel as [|fuel IH]; intros n s0 E L Eh Eb; [lia|].
  cbn [passes] in *. destruct n as [|n].
  - cbn in E. injection E as ->. cbn [nth_error]. rewrite Eh, Eb.
    destruct fuel; reflexivity.
  - cbn [nth_error] in *.
    destruct (ltb zero (current_altitude s0)); [|destruct n; discriminate].
    destruct (body K s0) as [why s2|s2|e]; try (destruct n; discriminate).
    apply IH; [exact E|lia|exact Eh|exact Eb].
Qed.

(** The states reached in a run that ends are among its [passes]. *)
Lemma reached_in_passes (fuel n : nat) (s : vars F) :
  (forall s1, loop K fuel (init K) <> Unfinished s1) ->
  reached K n s ->
  ltb zero (current_altitude s) = true ->
  nth_error (passes K fuel (init K)) n = Some s.
Proof.
  intros N R. revert N. induction R as [|n s s1 R IH Eh Eb]; intros N Eh1.
  - destruct fuel; reflexivity.
  - pose proof (reached_before_end fuel (S n) s1 N
                  (reached_pass K n s s1 R Eh Eb) Eh1) as L.
    apply (passes_next fuel n (init K) s s1); [apply IH; assumption|lia|exact Eh|exact Eb].
Qed.


End Through.

(** The water and the acceleration recorded for pass [k], by [k] alone. *)
Lemma reached_by_pass_number {F : Type} `{Arith F} (K : consts F)
    (n : nat) (s : vars F) :
  reached K n s ->
  water_remaining_values s
  = map (fun k => quot (py_max0 (sub (mass_at K k) (dry_mass K))) ten)
        (seq 1 n) /\
  acceleration_values s
  = map (fun k => quot (sub (total_thrust K) (mul (mass_at K k) (g K)))
                       (mass_at K k))
        (seq 1 n).
Proof.
  induction 1 as [|n s s1 R IH Eh Eb]; [split; reflexivity|].
  destruct IH as (Iw & Ia).
  destruct (body_Continue K s s1 Eb)
    as (_ & _ & _ & _ & _ & _ & _ & _ & _ & _ & _ & Ewv & Eav).
  destruct (reached_trace K n s R) as (Et & _).
  assert (M : mass_after K s = mass_at K (S n)).
  { unfold mass_after, mass_at, time_after. rewrite Et. reflexivity. }
  split.
  - rewrite Ewv, Iw, seq_S, map_app, M. reflexivity.
  - rewrite Eav, Ia, seq_S, map_app. unfold acceleration_after.
    rewrite M. reflexivity.
Qed.

(** The calculated parameters of the script's own run go through and give
    the loop the constants of [default_consts]. *)
Lemma default_consts_derived :
  exists c : Calc.t,
    derive default = inr c /\ consts_of default c = default_consts.
Proof.
  eexists. split; vm_compute; reflexivity.
Qed.

(** The same for the runs of [narrow] and of [stalled]. *)
Lemma narrow_consts_derived :
  exists c : Calc.t,
    derive narrow = inr c /\ consts_of narrow c = narrow_consts.
Proof.
  eexists. split; vm_compute; reflexivity.
Qed.

Lemma stalled_consts_derived :
  exists c : Calc.t,
    derive stalled = inr c /\ consts_of stalled c = stalled_consts.
Proof.
  eexists. split; vm_compute; reflexivity.
Qed.

(** ** The order of the updates in a pass *)

(** C1.  A pass of the loop body that does not leave the loop computes its
    new state from the old one in this order: [t] grows by [dt]; the
    current mass is the wet mass less the ejection rate times the new [t],
    and it is above the dry mass; the acceleration is (thrust - mass * g) /
    mass; the velocity loses acceleration * dt; the altitude loses the
    already updated velocity times dt; and the loop goes on from that state.
    When instead the current mass is at most the dry mass, the pass leaves
    the loop as water-depleted, with [t] advanced, nothing appended to the
    five lists, and velocity and altitude untouched. *)
Theorem pass_order {F : Type} `{Arith F} (K : consts F) (s : vars F) :
  (forall s1 : vars F,
     body K s = Continue s1 ->
     t s1 = add (t s) (dt K) /\
     (exists m a : F,
        current_mass s1 = Some m /\
        m = sub (wet_mass K) (mul (total_water_mass_ejection_rate K) (t s1)) /\
        leb m (dry_mass K) = false /\
        acceleration s1 = Some a /\
        a = quot (sub (total_thrust K) (mul m (g K))) m /\
        current_velocity s1 = sub (current_velocity s) (mul a (dt K)) /\
        current_altitude s1 =
          sub (current_altitude s) (mul (current_velocity s1) (dt K))) /\
     (ltb zero (current_altitude s) = true ->
      forall fuel : nat, loop K (S fuel) s = loop K fuel s1))
  /\
  (leb (sub (wet_mass K)
          (mul (total_water_mass_ejection_rate K) (add (t s) (dt K))))
       (dry_mass K) = true ->
   exists s1 : vars F,
     body K s = Break WaterDepleted s1 /\
     t s1 = add (t s) (dt K) /\
     time_values s1 = time_values s /\
     altitude_values s1 = altitude_values s /\
     velocity_values s1 = velocity_values s /\
     water_remaining_values s1 = water_remaining_values s /\
     acceleration_values s1 = acceleration_values s /\
     current_velocity s1 = current_velocity s /\
     current_altitude s1 = current_altitude s /\
     (ltb zero (current_altitude s) = true ->
      forall fuel : nat, loop K (S fuel) s = Done WaterDepleted s1)).
Proof.
  split.
  - intros s1 Eb.
    destruct (body_Continue K s s1 Eb)
      as (Em & _ & _ & Et & Ev & Ealt & Emass & Eacc & _).
    split; [exact Et|]. split.
    + exists (mass_after K s), (acceleration_after K s).
      repeat split; try assumption.
      * rewrite Et. reflexivity.
      * rewrite Ealt, Ev. reflexivity.
    + intros Eh fuel. cbn [loop]. rewrite Eh, Eb. reflexivity.
  - intros Em. pose proof (body_Depleted K s Em) as Eb.
    eexists. split; [exact Eb|]. cbn.
    do 8 (split; [reflexivity|]).
    intros Eh fuel. cbn [loop]. rewrite Eh, Eb. reflexivity.
Qed.

Lemma pass_order_witness :
  exists s1 : vars float,
    body default_consts (init default_consts) = Continue s1 /\
    t s1 = add (t (init default_consts)) (dt default_consts).
Proof.
  assert (E : exists s1, body default_consts (init default_consts) = Continue s1)
    by (eexists; vm_compute; reflexivity).
  destruct E as [s1 E]. exists s1. split; [exact E|].
  exact (proj1 (proj1 (pass_order default_consts (init default_consts)) s1 E)).
Defined.

(** ** The acceleration the report reads *)

(** C10.  The figure reported as peak deceleration is the value the
    variable [acceleration] holds when the loop is left, divided by [g];
    that value is the one computed in the last pass that reached the force
    computation.  When the loop is left for hover it is the acceleration
    computed in that very pass, from the mass at the final [t], although the
    pass ended the loop and recorded nothing; on the other two exits it is
    the acceleration of the last recorded pass.  The variable is unbound
    exactly when no pass reached the force computation. *)
Theorem peak_reads_last_acceleration {F : Type} `{Arith F}
    (K : consts F) (fuel : nat) (why : exit) (s : vars F) :
  loop K fuel (init K) = Done why s ->
  (why = HoverAchieved ->
   exists m : F,
     current_mass s = Some m /\
     m = sub (wet_mass K) (mul (total_water_mass_ejection_rate K) (t s)) /\
     acceleration s = Some (quot (sub (total_thrust K) (mul m (g K))) m)) /\
  (why <> HoverAchieved ->
   acceleration s = last_of (acceleration_values s)) /\
  (forall a : F,
     acceleration s = Some a -> peak_deceleration K s = py_div a (g K)) /\
  (acceleration s = None ->
   why <> HoverAchieved /\ acceleration_values s = [] /\
   peak_deceleration K s = raise NameError) /\
  (forall r : report F,
     simulate K fuel = Reported r ->
     final r = s /\
     exists a : F, acceleration s = Some a /\ peak r = quot a (g K)).
Proof.
  intros L.
  pose proof (loop_from_reached K fuel 0 (init K) (reached_init K)) as R.
  rewrite L in R. destruct R as (k & s0 & R & C).
  destruct (reached_trace K k s0 R) as (_ & _ & _ & _ & _ & _ & Iacc & _).
  assert (A1 : why = HoverAchieved ->
     exists m : F,
       current_mass s = Some m /\
       m = sub (wet_mass K) (mul (total_water_mass_ejection_rate K) (t s)) /\
       acceleration s = Some (quot (sub (total_thrust K) (mul m (g K))) m)).
  { intros ->. destruct C as [(Ew & _)|(_ & Eb)]; [discriminate|].
    destruct (body_Break K s0 s _ Eb) as (Et & Em & _ & _ & _ & _ & _ & C).
    destruct C as [(Ew & _)|(_ & _ & _ & _ & _ & Ea)]; [discriminate|].
    exists (mass_after K s0). split; [exact Em|]. split.
    - rewrite Et. reflexivity.
    - exact Ea. }
  assert (A2 : why <> HoverAchieved ->
     acceleration s = last_of (acceleration_values s)).
  { intros N. destruct C as [(_ & -> & _)|(_ & Eb)]; [exact Iacc|].
    destruct (body_Break K s0 s _ Eb) as (_ & _ & _ & _ & _ & _ & Eav & C).
    destruct C as [(_ & _ & _ & _ & Ea)|(Ew & _)]; [|contradiction].
    rewrite Ea, Eav. exact Iacc. }
  assert (A3 : acceleration s = None ->
     why <> HoverAchieved /\ acceleration_values s = [] /\
     peak_deceleration K s = raise NameError).
  { intros N.
    assert (W : why <> HoverAchieved).
    { intros E. destruct (A1 E) as (m & _ & _ & Ea). congruence. }
    split; [exact W|]. split.
    - specialize (A2 W). rewrite N in A2.
      destruct (acceleration_values s) as [|x l]; [reflexivity|].
      exfalso. clear - A2. revert x A2.
      induction l as [|y l IH]; intros x A2; cbn in A2; [discriminate|].
      exact (IH y A2).
    - unfold peak_deceleration. rewrite N. reflexivity. }
  split; [exact A1|]. split; [exact A2|]. split; [|split; [exact A3|]].
  - intros a Ea. unfold peak_deceleration. rewrite Ea. reflexivity.
  - intros r S. unfold simulate in S. rewrite L in S.
    destruct (water_remaining K s); cbn in S; [discriminate|].
    destruct (hover K s); cbn in S; [discriminate|].
    unfold peak_deceleration, py_div in S.
    destruct (acceleration s) as [a|]; cbn in S; [|discriminate].
    destruct (eqb (g K) zero); cbn in S; [discriminate|].
    injection S as <-. split; [reflexivity|].
    exists a. split; reflexivity.
Qed.

Lemma peak_reads_last_acceleration_witness :
  exists (s : vars float) (a : float),
    loop default_consts 1000 (init default_consts) = Done HoverAchieved s /\
    acceleration s = Some a /\
    peak_deceleration default_consts s = py_div a (g default_consts).
Proof.
  assert (E : exists s a,
             loop default_consts 1000 (init default_consts)
             = Done HoverAchieved s /\ acceleration s = Some a)
    by (do 2 eexists; split; vm_compute; reflexivity).
  destruct E as (s & a & E & Ea). exists s, a.
  split; [exact E|]. split; [exact Ea|].
  exact (proj1 (proj2 (proj2
           (peak_reads_last_acceleration default_consts 1000 HoverAchieved s E)))
           a Ea).
Defined.

(** ** The calculated parameters *)

Section Derived.

Local Open Scope float_scope.


Lemma py_sqrt_inr (x r : float) : py_sqrt x = inr r -> r = PrimFloat.sqrt x.
Proof.
  unfold py_sqrt, raise, ret.
  destruct (is_nan (PrimFloat.sqrt x) && negb (is_nan x)); [discriminate|].
  intros [= <-]. reflexivity.
Qed.




End Derived.

(** ** What the report is made of *)

(** A report is made of the state the loop ended in. *)
Lemma simulate_Reported {F : Type} `{Arith F} (K : consts F) (fuel : nat)
    (r : report F) :
  simulate K fuel = Reported r ->
  exists (b : bool),
    loop K fuel (init K) = Done (why_stopped r) (final r) /\
    water_remaining K (final r) = inr (remaining r) /\
    hover K (final r) = inr b /\
    outcome r = (if b then Hover else Impact) /\
    peak_deceleration K (final r) = inr (peak r).
Proof.
  unfold simulate. destruct (loop K fuel (init K)) as [why s|e|s]; try discriminate.
  destruct (water_remaining K s) as [e|w] eqn:Ew; cbn; [discriminate|].
  destruct (hover K s) as [e|b] eqn:Eh; cbn; [discriminate|].
  destruct (peak_deceleration K s) as [e|p] eqn:Ep; cbn; [discriminate|].
  intros [= <-]. cbn. exists b. repeat split; assumption.
Qed.

(** * Binary64 arithmetic

    What the loop needs of the binary64 operations, from their
    specification in the standard library ([SpecFloat], [FloatAxioms]):
    signs of products and quotients, and the order between a sum or a
    difference and its operands.  Finite floats are measured in units of
    [2^-1074], the least positive float, so that their values are
    integers. *)

Section Rounding.

Local Open Scope Z_scope.

(** ** Digits *)

Lemma digits2_pos_bounds (p : positive) :
  2 ^ (Zpos (digits2_pos p) - 1) <= Zpos p < 2 ^ Zpos (digits2_pos p).
Proof.
  induction p as [p IH|p IH|]; cbn [digits2_pos].
  - rewrite Pos2Z.inj_succ.
    replace (Z.succ (Zpos (digits2_pos p)) - 1)
      with (Z.succ (Zpos (digits2_pos p) - 1)) by lia.
    rewrite !Z.pow_succ_r by lia. lia.
  - rewrite Pos2Z.inj_succ.
    replace (Z.succ (Zpos (digits2_pos p)) - 1)
      with (Z.succ (Zpos (digits2_pos p) - 1)) by lia.
    rewrite !Z.pow_succ_r by lia. lia.
  - cbn. lia.
Qed.

Lemma digits2_pos_unique (p : positive) (k : Z) :
  2 ^ (k - 1) <= Zpos p < 2 ^ k -> Zpos (digits2_pos p) = k.
Proof.
  intros [L U]. pose proof (digits2_pos_bounds p) as [L' U'].
  assert (K0 : 0 < k).
  { destruct (Z.lt_trichotomy k 0) as [N|[N|N]]; [|subst; cbn in U; lia|lia].
    rewrite Z.pow_neg_r in U by lia. lia. }
  destruct (Z.lt_trichotomy (Zpos (digits2_pos p)) k) as [N|[N|N]]; [|exact N|].
  - assert (2 ^ Zpos (digits2_pos p) <= 2 ^ (k - 1))
      by (apply Z.pow_le_mono_r; lia). lia.
  - assert (2 ^ k <= 2 ^ (Zpos (digits2_pos p) - 1))
      by (apply Z.pow_le_mono_r; lia). lia.
Qed.

(** ** Shifting right *)

Lemma iter_pos_nat {A : Type} (f : A -> A) (p : positive) (x : A) :
  iter_pos f p x = Nat.iter (Pos.to_nat p) f x.
Proof.
  revert x. induction p as [p IH|p IH|]; intros x; cbn [iter_pos].
  - rewrite !IH. rewrite Pos2Nat.inj_xI.
    replace (S (2 * Pos.to_nat p))%nat
      with (Pos.to_nat p + (Pos.to_nat p + 1))%nat by lia.
    rewrite !Nat.iter_add. reflexivity.
  - rewrite !IH. rewrite Pos2Nat.inj_xO.
    replace (2 * Pos.to_nat p)%nat with (Pos.to_nat p + Pos.to_nat p)%nat by lia.
    rewrite Nat.iter_add. reflexivity.
  - reflexivity.
Qed.

Lemma shr_1_spec (m : Z) (r s : bool) :
  0 <= m ->
  shr_1 {| shr_m := m; shr_r := r; shr_s := s |}
  = {| shr_m := m / 2; shr_r := Z.odd m; shr_s := r || s |}.
Proof.
  intros M. destruct m as [|p|p]; [reflexivity| |lia].
  destruct p as [p|p|].
  - cbn [shr_1]. f_equal.
    rewrite Pos2Z.inj_xI.
    apply Z.div_unique with (r := 1); lia.
  - cbn [shr_1]. f_equal.
    rewrite Pos2Z.inj_xO.
    apply Z.div_unique with (r := 0); lia.
  - reflexivity.
Qed.

(** [k] shifts of a mantissa [M]: the quotient, the bit shifted out last,
    and whether anything below it was set. *)
Lemma shr_iter (M : Z) (k : nat) :
  0 <= M ->
  Nat.iter (S k) shr_1 {| shr_m := M; shr_r := false; shr_s := false |}
  = {| shr_m := M / 2 ^ Z.of_nat (S k);
       shr_r := Z.odd (M / 2 ^ Z.of_nat k);
       shr_s := negb (M mod 2 ^ Z.of_nat k =? 0) |}.
Proof.
  intros HM. induction k as [|k IH].
  - cbn [Nat.iter]. rewrite shr_1_spec by exact HM.
    change (Z.of_nat 1) with 1. change (Z.of_nat 0) with 0.
    rewrite Z.pow_1_r, Z.pow_0_r, Z.div_1_r, Z.mod_1_r. reflexivity.
  - change (Nat.iter (S (S k)) shr_1 ?x) with (shr_1 (Nat.iter (S k) shr_1 x)).
    rewrite IH. rewrite shr_1_spec by (apply Z.div_pos; lia).
    f_equal.
    + rewrite Z.div_div by lia.
      rewrite (Nat2Z.inj_succ (S k)), Z.pow_succ_r by lia.
      f_equal. lia.
    + rewrite (Nat2Z.inj_succ k), Z.pow_succ_r by lia.
      set (P := 2 ^ Z.of_nat k). assert (0 < P) by (apply Z.pow_pos_nonneg; lia).
      rewrite (Z.mul_comm 2 P), Z.rem_mul_r by lia.
      pose proof (Z.mod_pos_bound M P ltac:(lia)).
      pose proof (Z.mod_pos_bound (M / P) 2 ltac:(lia)).
      rewrite (Zmod_odd (M / P)) in *.
      destruct (Z.odd (M / P)); cbn [orb].
      * symmetry. apply negb_true_iff, Z.eqb_neq. lia.
      * rewrite Z.mul_0_r, Z.add_0_r. reflexivity.
Qed.

Lemma fexp_val (x : Z) : fexp prec emax x = Z.max (x - 53) (-1074).
Proof. reflexivity. Qed.

Lemma iter_xO (m d : positive) :
  Zpos (Pos.iter xO m d) = Zpos m * 2 ^ Zpos d.
Proof.
  induction d as [|d IH] using Pos.peano_ind.
  - cbn [Pos.iter]. rewrite Z.pow_1_r. lia.
  - rewrite Pos.iter_succ, Pos2Z.inj_xO, IH, Pos2Z.inj_succ, Z.pow_succ_r by lia.
    lia.
Qed.

Lemma round_nearest_even_bounds (m : Z) (r s : bool) :
  let m2 := round_nearest_even m
              (loc_of_shr_record {| shr_m := m; shr_r := r; shr_s := s |}) in
  m <= m2 <= m + 1 /\ (m2 = m + 1 -> r = true).
Proof.
  destruct r, s; cbn; try destruct (Z.even m); split; try lia; auto; lia.
Qed.

Lemma shr_fexp_fixed (m e : Z) :
  fexp prec emax (Zdigits2 m + e) = e ->
  shr_fexp prec emax m e loc_Exact
  = ({| shr_m := m; shr_r := false; shr_s := false |}, e).
Proof.
  intros E. unfold shr_fexp. rewrite E, Z.sub_diag. reflexivity.
Qed.

Lemma pow_split (a b : Z) : 0 <= a -> 0 <= b -> 2 ^ (a + b) = 2 ^ a * 2 ^ b.
Proof. intros. apply Z.pow_add_r; assumption. Qed.

Lemma pow2_pos (a : Z) : 0 <= a -> 0 < 2 ^ a.
Proof. intros. apply Z.pow_pos_nonneg; lia. Qed.

Lemma shr_fexp_shift (M : positive) (e n : Z) :
  0 < n ->
  fexp prec emax (Zpos (digits2_pos M) + e) - e = n ->
  shr_fexp prec emax (Zpos M) e loc_Exact
  = ({| shr_m := Zpos M / 2 ^ n;
        shr_r := Z.odd (Zpos M / 2 ^ (n - 1));
        shr_s := negb (Zpos M mod 2 ^ (n - 1) =? 0) |}, e + n).
Proof.
  intros Hn E. unfold shr_fexp. cbn [Zdigits2 shr_record_of_loc]. rewrite E.
  destruct n as [|p|p]; try lia.
  cbn [shr]. rewrite iter_pos_nat.
  destruct (Pos.to_nat p) as [|k] eqn:Ek; [lia|].
  rewrite shr_iter by lia.
  replace (Z.of_nat (S k)) with (Zpos p) by lia.
  replace (Z.of_nat k) with (Zpos p - 1) by lia.
  reflexivity.
Qed.

(** The rounded value of [M * 2^e], in units of [2^-1074], lies between the
    multiples of the spacing [G] next to the exact value. *)
Lemma binary_round_bracket (sx : bool) (M : positive) (e : Z) :
  -1074 <= e ->
  let c := Z.max (Zpos (digits2_pos M) + e - 53) (-1074) in
  let G := 2 ^ (c + 1074) in
  let E := Zpos M * 2 ^ (e + 1074) in
  exists W : Z,
    (forall j, j * G <= E -> j * G <= W) /\
    (forall j, E <= j * G -> W <= j * G) /\
    ((exists mr er,
        binary_round prec emax sx M e = S754_finite sx mr er /\
        Zpos mr * 2 ^ (er + 1074) = W /\ -1074 <= er)
     \/ (binary_round prec emax sx M e = S754_infinity sx /\
         2 ^ 2098 <= W)).
Proof.
  intros He c G E.
  pose proof (digits2_pos_bounds M) as [DL DU].
  set (d := Zpos (digits2_pos M)) in *.
  assert (Hd : 0 < d) by (unfold d; lia).
  assert (Gpos : 0 < G) by (apply pow2_pos; unfold c; lia).
  assert (apos : 0 < 2 ^ (e + 1074)) by (apply pow2_pos; lia).
  unfold binary_round. rewrite fexp_val. fold d. fold c.
  destruct (Z_le_gt_dec c e) as [Hc|Hc].
  - (* the mantissa fits: no bit is lost *)
    assert (exists M' : positive,
              shl_align M e c = (M', c) /\ Zpos M' = Zpos M * 2 ^ (e - c))
      as (M' & -> & HM').
    { unfold shl_align. destruct (c - e) as [|p|p] eqn:Ec.
      - exists M. replace c with e by lia. rewrite Z.sub_diag, Z.pow_0_r.
        split; [reflexivity|lia].
      - lia.
      - exists (Pos.iter xO M p). split; [reflexivity|].
        rewrite iter_xO. f_equal. f_equal. lia. }
    assert (Dg : Zpos (digits2_pos M') = d + (e - c)).
    { apply digits2_pos_unique. rewrite HM'.
      replace (d + (e - c) - 1) with ((d - 1) + (e - c)) by lia.
      rewrite !pow_split by lia.
      assert (0 < 2 ^ (e - c)) by (apply pow2_pos; lia). nia. }
    assert (Fx : fexp prec emax (Zdigits2 (Zpos M') + c) = c).
    { rewrite fexp_val. cbn [Zdigits2]. rewrite Dg. unfold c. lia. }
    unfold binary_round_aux. rewrite (shr_fexp_fixed _ _ Fx).
    cbn [shr_m loc_of_shr_record round_nearest_even].
    rewrite (shr_fexp_fixed _ _ Fx). cbn [shr_m].
    assert (EW : Zpos M' * 2 ^ (c + 1074) = E).
    { unfold E. rewrite HM'. rewrite <- Z.mul_assoc, <- pow_split by lia.
      f_equal. f_equal. lia. }
    exists E. split; [auto|]. split; [auto|].
    change (emax - prec) with 971.
    destruct (c <=? 971) eqn:Ov.
    + left. exists M', c. split; [reflexivity|]. split; [exact EW|unfold c; lia].
    + right. split; [reflexivity|].
      apply Z.leb_gt in Ov. rewrite <- EW.
      assert (D53 : Zpos (digits2_pos M') = 53) by (rewrite Dg; unfold c in *; lia).
      pose proof (digits2_pos_bounds M') as [L' _]. rewrite D53 in L'.
      change (53 - 1) with 52 in L'.
      assert (2 ^ 2046 <= 2 ^ (c + 1074)) by (apply Z.pow_le_mono_r; lia).
      change (2 ^ 2098) with (2 ^ 52 * 2 ^ 2046).
      assert (0 < 2 ^ 52) by (apply pow2_pos; lia).
      assert (0 < 2 ^ 2046) by (apply pow2_pos; lia).
      nia.
  - (* bits are shifted out and the mantissa is rounded *)
    assert (Ec : c = d + e - 53) by (unfold c in *; lia).
    assert (Hn : 0 < d - 53) by lia.
    assert (SA : shl_align M e c = (M, e)).
    { unfold shl_align. destruct (c - e) eqn:Es; try reflexivity. lia. }
    rewrite SA. unfold binary_round_aux.
    rewrite (shr_fexp_shift M e (d - 53)) by (try rewrite fexp_val; fold d; lia).
    replace (e + (d - 53)) with c by lia.
    set (n := d - 53) in *.
    set (m' := Zpos M / 2 ^ n).
    assert (Pn : 0 < 2 ^ n) by (apply pow2_pos; lia).
    assert (Hm' : 2 ^ 52 <= m' < 2 ^ 53).
    { unfold m'. split.
      - apply Z.div_le_lower_bound; [lia|].
        replace (d - 1) with (n + 52) in DL by (unfold n; lia).
        rewrite pow_split in DL by lia. lia.
      - apply Z.div_lt_upper_bound; [lia|].
        replace d with (n + 53) in DU by (unfold n; lia).
        rewrite pow_split in DU by lia. lia. }
    set (rr := Z.odd (Zpos M / 2 ^ (n - 1))).
    set (ss := negb (Zpos M mod 2 ^ (n - 1) =? 0)).
    cbn [shr_m].
    pose proof (round_nearest_even_bounds m' rr ss) as [Rb Rr].
    set (m2 := round_nearest_even m'
                 (loc_of_shr_record {| shr_m := m'; shr_r := rr; shr_s := ss |}))
      in *.
    cbn zeta in Rb, Rr.
    (* the mantissa against the exact quotient *)
    assert (Mdiv : m' * 2 ^ n <= Zpos M < (m' + 1) * 2 ^ n).
    { unfold m'. pose proof (Z.div_mod (Zpos M) (2 ^ n) ltac:(lia)).
      pose proof (Z.mod_pos_bound (Zpos M) (2 ^ n) Pn). nia. }
    assert (Up : m2 = m' + 1 -> m' * 2 ^ n < Zpos M).
    { intros U. specialize (Rr U). unfold rr in Rr.
      set (k := n - 1) in *.
      assert (Kn : n = k + 1) by (unfold k; lia).
      assert (Pk : 0 < 2 ^ k) by (apply pow2_pos; unfold k; lia).
      assert (P2 : 2 ^ n = 2 ^ k * 2).
      { rewrite Kn, pow_split by (unfold k; lia). rewrite Z.pow_1_r. reflexivity. }
      assert (Q : Zpos M / 2 ^ k / 2 = m').
      { unfold m'. rewrite Z.div_div by lia. rewrite P2. reflexivity. }
      pose proof (Zmod_odd (Zpos M / 2 ^ k)) as O. rewrite Rr in O.
      pose proof (Z.div_mod (Zpos M / 2 ^ k) 2 ltac:(lia)) as D2.
      rewrite O, Q in D2.
      pose proof (Z.div_mod (Zpos M) (2 ^ k) ltac:(lia)) as D1.
      pose proof (Z.mod_pos_bound (Zpos M) (2 ^ k) Pk).
      rewrite P2. nia. }
    assert (GE : G = 2 ^ n * 2 ^ (e + 1074)).
    { unfold G. rewrite <- pow_split by lia. f_equal. lia. }
    assert (B1 : forall j, j * G <= E -> j * G <= m2 * G).
    { intros j Hj. unfold E in Hj. rewrite GE in Hj.
      assert (j * 2 ^ n <= Zpos M) by nia.
      assert (j <= m') by nia. nia. }
    assert (B2 : forall j, E <= j * G -> m2 * G <= j * G).
    { intros j Hj. unfold E in Hj. rewrite GE in Hj.
      assert (Zpos M <= j * 2 ^ n) by nia.
      assert (m2 <= j); [|nia].
      destruct (Z.eq_dec m2 (m' + 1)) as [U|U].
      - specialize (Up U). nia.
      - nia. }
    exists (m2 * G). split; [exact B1|]. split; [exact B2|].
    (* the second normalisation *)
    change (emax - prec) with 971.
    destruct (Z.eq_dec m2 (2 ^ 53)) as [Carry|NoCarry].
    + rewrite Carry. unfold shr_fexp. rewrite fexp_val.
      change (Zdigits2 (2 ^ 53)) with 54.
      replace (Z.max (54 + c - 53) (-1074) - c) with 1 by lia.
      cbn [shr shr_record_of_loc iter_pos].
      change (shr_1 {| shr_m := 2 ^ 53; shr_r := false; shr_s := false |})
        with {| shr_m := 2 ^ 52; shr_r := false; shr_s := false |}.
      cbn [shr_m]. change (2 ^ 52) with (Zpos (2 ^ 52)%positive) at 1 2.
      cbn match.
      assert (VW : Zpos (2 ^ 52) * 2 ^ (c + 1 + 1074) = 2 ^ 53 * G).
      { unfold G. replace (c + 1 + 1074) with (1 + (c + 1074)) by lia.
        rewrite pow_split by lia. change (2 ^ 1) with 2.
        change (Zpos (2 ^ 52)) with (2 ^ 52). change (2 ^ 53) with (2 ^ 52 * 2).
        lia. }
      destruct (c + 1 <=? 971) eqn:Ov.
      * left. exists (2 ^ 52)%positive, (c + 1).
        split; [reflexivity|]. split; [exact VW|lia].
      * right. split; [reflexivity|]. apply Z.leb_gt in Ov.
        unfold G.
        assert (2 ^ 2045 <= 2 ^ (c + 1074)) by (apply Z.pow_le_mono_r; lia).
        change (2 ^ 2098) with (2 ^ 53 * 2 ^ 2045).
        assert (0 < 2 ^ 53) by (apply pow2_pos; lia). nia.
    + assert (Hm2 : 2 ^ 52 <= m2 < 2 ^ 53) by lia.
      destruct m2 as [|q|q] eqn:Eq2; try lia.
      assert (Dq : Zpos (digits2_pos q) = 53)
        by (apply digits2_pos_unique; change (53 - 1) with 52; lia).
      assert (Fx : fexp prec emax (Zdigits2 (Zpos q) + c) = c).
      { rewrite fexp_val. cbn [Zdigits2]. rewrite Dq. lia. }
      rewrite (shr_fexp_fixed _ _ Fx). cbn [shr_m].
      destruct (c <=? 971) eqn:Ov.
      * left. exists q, c. split; [reflexivity|]. split; [reflexivity|lia].
      * right. split; [reflexivity|]. apply Z.leb_gt in Ov.
        unfold G.
        assert (2 ^ 2046 <= 2 ^ (c + 1074)) by (apply Z.pow_le_mono_r; lia).
        change (2 ^ 2098) with (2 ^ 52 * 2 ^ 2046).
        assert (0 < 2 ^ 2046) by (apply pow2_pos; lia). nia.
Qed.

Lemma valid_finite (s : bool) (m : positive) (e : Z) :
  valid_binary (S754_finite s m e) = true ->
  -1074 <= e <= 971 /\ Zpos (digits2_pos m) <= 53 /\
  (e = -1074 \/ Zpos (digits2_pos m) = 53).
Proof.
  cbn [SpecFloat.valid_binary]. unfold bounded, canonical_mantissa.
  rewrite andb_true_iff, Z.eqb_eq, Z.leb_le, fexp_val.
  change (emax - prec) with 971. lia.
Qed.

Lemma valid_value (s : bool) (m : positive) (e : Z) :
  valid_binary (S754_finite s m e) = true ->
  0 < Zpos m * 2 ^ (e + 1074) < 2 ^ 2098.
Proof.
  intros Vd. destruct (valid_finite s m e Vd) as (He & Hd & _).
  pose proof (digits2_pos_bounds m) as [_ U].
  assert (0 < 2 ^ (e + 1074)) by (apply pow2_pos; lia).
  split; [lia|].
  assert (2 ^ Zpos (digits2_pos m) <= 2 ^ 53) by (apply Z.pow_le_mono_r; lia).
  assert (2 ^ (e + 1074) <= 2 ^ 2045) by (apply Z.pow_le_mono_r; lia).
  change (2 ^ 2098) with (2 ^ 53 * 2 ^ 2045).
  assert (0 < 2 ^ 53) by (apply pow2_pos; lia).
  nia.
Qed.

(** Two valid mantissas with exponents in order have values in order. *)
Lemma value_by_exponent (m1 m2 : positive) (e1 e2 : Z) :
  valid_binary (S754_finite false m1 e1) = true ->
  valid_binary (S754_finite false m2 e2) = true ->
  e1 < e2 ->
  Zpos m1 * 2 ^ (e1 + 1074) < Zpos m2 * 2 ^ (e2 + 1074).
Proof.
  intros V1 V2 L.
  destruct (valid_finite _ _ _ V1) as (He1 & Hd1 & _).
  destruct (valid_finite _ _ _ V2) as (He2 & _ & [X|D2]); [lia|].
  pose proof (digits2_pos_bounds m1) as [_ U1].
  pose proof (digits2_pos_bounds m2) as [L2 _]. rewrite D2 in L2.
  change (53 - 1) with 52 in L2.
  assert (2 ^ Zpos (digits2_pos m1) <= 2 ^ 53) by (apply Z.pow_le_mono_r; lia).
  replace (e2 + 1074) with ((e2 - e1 - 1) + 1 + (e1 + 1074)) by lia.
  rewrite (pow_split (e2 - e1 - 1 + 1) (e1 + 1074)),
    (pow_split (e2 - e1 - 1) 1) by lia.
  change (2 ^ 1) with 2.
  set (A := 2 ^ (e1 + 1074)). set (P := 2 ^ (e2 - e1 - 1)).
  assert (0 < A) by (apply pow2_pos; lia).
  assert (0 < P) by (apply pow2_pos; lia).
  change (2 ^ 53) with 9007199254740992 in *.
  change (2 ^ 52) with 4503599627370496 in *.
  assert (S1 : Zpos m1 * A < 9007199254740992 * A) by nia.
  assert (S2 : 9007199254740992 * A <= Zpos m2 * 2 * A) by nia.
  assert (S3 : Zpos m2 * 2 * A <= Zpos m2 * (P * 2 * A)).
  { assert (A <= P * A) by nia. nia. }
  lia.
Qed.

(** Comparison of valid finite or zero floats is that of their values. *)
Lemma SFcompare_value (f1 f2 : spec_float) :
  valid_binary f1 = true -> valid_binary f2 = true ->
  is_real f1 = true -> is_real f2 = true ->
  SFcompare f1 f2 = Some (SV f1 ?= SV f2).
Proof.
  intros V1 V2 R1 R2.
  destruct f1 as [s1| |  |s1 m1 e1]; try discriminate;
  destruct f2 as [s2| |  |s2 m2 e2]; try discriminate.
  - reflexivity.
  - pose proof (valid_value _ _ _ V2). cbn [SFcompare SV].
    destruct s2; cbn [cond_Zopp]; f_equal; symmetry.
    + apply Z.compare_gt_iff. lia.
    + apply Z.compare_lt_iff. lia.
  - pose proof (valid_value _ _ _ V1). cbn [SFcompare SV].
    destruct s1; cbn [cond_Zopp]; f_equal; symmetry.
    + apply Z.compare_lt_iff. lia.
    + apply Z.compare_gt_iff. lia.
  - pose proof (valid_value _ _ _ V1). pose proof (valid_value _ _ _ V2).
    assert (V1' : valid_binary (S754_finite false m1 e1) = true) by exact V1.
    assert (V2' : valid_binary (S754_finite false m2 e2) = true) by exact V2.
    destruct (valid_finite _ _ _ V1) as (He1 & _).
    cbn [SFcompare SV].
    assert (C : match e1 ?= e2 with
                | Eq => Pos.compare_cont Eq m1 m2
                | Lt => Lt
                | Gt => Gt
                end
                = (Zpos m1 * 2 ^ (e1 + 1074) ?= Zpos m2 * 2 ^ (e2 + 1074))).
    { destruct (Z.compare_spec e1 e2) as [E|L|G].
      - subst e2. rewrite <- Zmult_compare_compat_r
          by (apply Z.lt_gt, pow2_pos; lia).
        reflexivity.
      - symmetry. apply Z.compare_lt_iff.
        apply value_by_exponent; assumption.
      - symmetry. apply Z.compare_gt_iff.
        apply value_by_exponent; assumption. }
    destruct s1, s2; cbn [cond_Zopp]; f_equal.
    + rewrite Z.compare_opp.
      rewrite (Z.compare_antisym (Zpos m1 * _)). rewrite <- C.
      destruct (e1 ?= e2); reflexivity.
    + symmetry. apply Z.compare_lt_iff. lia.
    + symmetry. apply Z.compare_gt_iff. lia.
    + exact C.
Qed.

Lemma SFleb_value (f1 f2 : spec_float) :
  valid_binary f1 = true -> valid_binary f2 = true ->
  is_real f1 = true -> is_real f2 = true ->
  SFleb f1 f2 = (SV f1 <=? SV f2).
Proof.
  intros V1 V2 R1 R2. unfold SFleb. rewrite SFcompare_value by assumption.
  unfold Z.leb. destruct (SV f1 ?= SV f2); reflexivity.
Qed.

Lemma SFltb_value (f1 f2 : spec_float) :
  valid_binary f1 = true -> valid_binary f2 = true ->
  is_real f1 = true -> is_real f2 = true ->
  SFltb f1 f2 = (SV f1 <? SV f2).
Proof.
  intros V1 V2 R1 R2. unfold SFltb. rewrite SFcompare_value by assumption.
  unfold Z.ltb. destruct (SV f1 ?= SV f2); reflexivity.
Qed.

(** A valid float against the spacing [2^c] at which [M * 2^e] is rounded:
    it is a multiple of the spacing, or lies below the least mantissa. *)
Lemma grid_cases (M mx : positive) (e ex : Z) :
  -1074 <= e ->
  valid_binary (S754_finite false mx ex) = true ->
  let c := Z.max (Zpos (digits2_pos M) + e - 53) (-1074) in
  (exists j, Zpos mx * 2 ^ (ex + 1074) = j * 2 ^ (c + 1074)) \/
  (Zpos mx * 2 ^ (ex + 1074) < 4503599627370496 * 2 ^ (c + 1074) /\
   4503599627370496 * 2 ^ (c + 1074) <= Zpos M * 2 ^ (e + 1074)).
Proof.
  intros He Vx c.
  destruct (valid_finite _ _ _ Vx) as (Hex & Hdx & _).
  pose proof (digits2_pos_bounds M) as [DL _].
  pose proof (digits2_pos_bounds mx) as [_ UX].
  destruct (Z_le_gt_dec c ex) as [C|C].
  - left. exists (Zpos mx * 2 ^ (ex - c)).
    rewrite <- Z.mul_assoc, <- pow_split by (unfold c in *; lia).
    f_equal. f_equal. lia.
  - right.
    assert (Ec : c = Zpos (digits2_pos M) + e - 53) by (unfold c in *; lia).
    assert (2 ^ Zpos (digits2_pos mx) <= 2 ^ 53) by (apply Z.pow_le_mono_r; lia).
    change (2 ^ 53) with 9007199254740992 in *.
    assert (A0 : 0 < 2 ^ (ex + 1074)) by (apply pow2_pos; lia).
    assert (GE : 2 ^ (c + 1074) = 2 ^ (c - ex - 1) * 2 * 2 ^ (ex + 1074)).
    { replace (c + 1074) with ((c - ex - 1) + 1 + (ex + 1074)) by lia.
      rewrite (pow_split (c - ex - 1 + 1)), (pow_split (c - ex - 1) 1) by lia.
      reflexivity. }
    assert (P0 : 0 < 2 ^ (c - ex - 1)) by (apply pow2_pos; lia).
    split.
    + rewrite GE. set (A := 2 ^ (ex + 1074)) in *. set (P := 2 ^ (c - ex - 1)) in *.
      assert (Zpos mx * A < 9007199254740992 * A) by nia.
      assert (A <= P * A) by nia. lia.
    + assert (0 < 2 ^ (e + 1074)) by (apply pow2_pos; lia).
      assert (P52 : 2 ^ (Zpos (digits2_pos M) - 1) * 2 ^ (e + 1074)
                    = 4503599627370496 * 2 ^ (c + 1074)).
      { rewrite <- pow_split by lia. change 4503599627370496 with (2 ^ 52).
        rewrite <- pow_split by lia. f_equal. lia. }
      rewrite <- P52. nia.
Qed.

Lemma grid_lo (M mx : positive) (e ex W : Z) :
  -1074 <= e ->
  valid_binary (S754_finite false mx ex) = true ->
  (forall j,
     j * 2 ^ (Z.max (Zpos (digits2_pos M) + e - 53) (-1074) + 1074)
     <= Zpos M * 2 ^ (e + 1074) ->
     j * 2 ^ (Z.max (Zpos (digits2_pos M) + e - 53) (-1074) + 1074) <= W) ->
  Zpos mx * 2 ^ (ex + 1074) <= Zpos M * 2 ^ (e + 1074) ->
  Zpos mx * 2 ^ (ex + 1074) <= W.
Proof.
  intros He Vx Lo L. destruct (grid_cases M mx e ex He Vx) as [(j & Ej)|(A & B)].
  - rewrite Ej in *. apply Lo. exact L.
  - specialize (Lo _ B). lia.
Qed.

Lemma grid_hi (M mx : positive) (e ex W : Z) :
  -1074 <= e ->
  valid_binary (S754_finite false mx ex) = true ->
  (forall j,
     Zpos M * 2 ^ (e + 1074)
     <= j * 2 ^ (Z.max (Zpos (digits2_pos M) + e - 53) (-1074) + 1074) ->
     W <= j * 2 ^ (Z.max (Zpos (digits2_pos M) + e - 53) (-1074) + 1074)) ->
  Zpos M * 2 ^ (e + 1074) <= Zpos mx * 2 ^ (ex + 1074) ->
  W <= Zpos mx * 2 ^ (ex + 1074).
Proof.
  intros He Vx Hi L. destruct (grid_cases M mx e ex He Vx) as [(j & Ej)|(A & B)].
  - rewrite Ej in *. apply Hi. exact L.
  - lia.
Qed.

(** A rounded sum is not below a float that the exact sum is not below. *)
Lemma normalize_above (x : spec_float) (z e : Z) :
  valid_binary x = true -> is_real x = true ->
  -1074 <= e ->
  valid_binary (binary_normalize prec emax z e false) = true ->
  SV x <= z * 2 ^ (e + 1074) ->
  SFleb x (binary_normalize prec emax z e false) = true.
Proof.
  intros Vx Rx He Vr L.
  assert (A0 : 0 < 2 ^ (e + 1074)) by (apply pow2_pos; lia).
  destruct z as [|M|M]; cbn [binary_normalize] in *.
  - rewrite SFleb_value by auto. cbn [SV]. apply Z.leb_le. lia.
  - destruct (binary_round_bracket false M e He) as (W & Lo & Hi & Form).
    destruct Form as [(mr & er & Er & EW & Her)|(Er & _)]; rewrite Er in *.
    + rewrite SFleb_value by auto. cbn [SV cond_Zopp]. apply Z.leb_le.
      rewrite EW.
      assert (0 < W).
      { rewrite <- EW. assert (0 < 2 ^ (er + 1074)) by (apply pow2_pos; lia). lia. }
      destruct x as [s| | |s mx ex]; try discriminate; cbn [SV]; [lia|].
      destruct s; cbn [cond_Zopp].
      * pose proof (valid_value _ _ _ Vx). lia.
      * apply (grid_lo M mx e ex W He Vx Lo). exact L.
    + destruct x; try discriminate; reflexivity.
  - destruct (binary_round_bracket true M e He) as (W & Lo & Hi & Form).
    destruct x as [s| | |s mx ex]; try discriminate; cbn [SV] in L; [lia|].
    pose proof (valid_value _ _ _ Vx) as Bx.
    destruct s; cbn [cond_Zopp] in L; [|lia].
    assert (HW : W <= Zpos mx * 2 ^ (ex + 1074)).
    { apply (grid_hi M mx e ex W He Vx Hi). lia. }
    destruct Form as [(mr & er & Er & EW & Her)|(Er & Big)]; rewrite Er in *.
    + rewrite SFleb_value by auto. cbn [SV cond_Zopp]. apply Z.leb_le. lia.
    + lia.
Qed.

(** A rounded sum is not above a float that the exact sum is not above. *)
Lemma normalize_below (x : spec_float) (z e : Z) :
  valid_binary x = true -> is_real x = true ->
  -1074 <= e ->
  valid_binary (binary_normalize prec emax z e false) = true ->
  z * 2 ^ (e + 1074) <= SV x ->
  SFleb (binary_normalize prec emax z e false) x = true.
Proof.
  intros Vx Rx He Vr L.
  assert (A0 : 0 < 2 ^ (e + 1074)) by (apply pow2_pos; lia).
  destruct z as [|M|M]; cbn [binary_normalize] in *.
  - rewrite SFleb_value by auto. cbn [SV]. apply Z.leb_le. lia.
  - destruct (binary_round_bracket false M e He) as (W & Lo & Hi & Form).
    destruct x as [s| | |s mx ex]; try discriminate; cbn [SV] in L; [lia|].
    pose proof (valid_value _ _ _ Vx) as Bx.
    destruct s; cbn [cond_Zopp] in L; [lia|].
    assert (HW : W <= Zpos mx * 2 ^ (ex + 1074)).
    { apply (grid_hi M mx e ex W He Vx Hi). lia. }
    destruct Form as [(mr & er & Er & EW & Her)|(Er & Big)]; rewrite Er in *.
    + rewrite SFleb_value by auto. cbn [SV cond_Zopp]. apply Z.leb_le. lia.
    + lia.
  - destruct (binary_round_bracket true M e He) as (W & Lo & Hi & Form).
    destruct Form as [(mr & er & Er & EW & Her)|(Er & _)]; rewrite Er in *.
    + rewrite SFleb_value by auto. cbn [SV cond_Zopp]. apply Z.leb_le.
      rewrite EW.
      assert (0 < W).
      { rewrite <- EW. assert (0 < 2 ^ (er + 1074)) by (apply pow2_pos; lia). lia. }
      destruct x as [s| | |s mx ex]; try discriminate; cbn [SV]; [lia|].
      destruct s; cbn [cond_Zopp].
      * assert (Zpos mx * 2 ^ (ex + 1074) <= W); [|lia].
        apply (grid_lo M mx e ex W He Vx Lo). cbn [SV cond_Zopp] in L. lia.
      * pose proof (valid_value _ _ _ Vx). lia.
    + destruct x; try discriminate; reflexivity.
Qed.

Lemma shl_align_value (m : positive) (e ez : Z) :
  -1074 <= ez -> ez <= e ->
  Zpos (fst (shl_align m e ez)) * 2 ^ (ez + 1074) = Zpos m * 2 ^ (e + 1074).
Proof.
  intros L1 L2. unfold shl_align. destruct (ez - e) as [|p|p] eqn:Ed; cbn [fst].
  - replace ez with e by lia. reflexivity.
  - lia.
  - rewrite iter_xO, <- Z.mul_assoc, <- pow_split by lia. f_equal. f_equal. lia.
Qed.

Lemma cond_Zopp_mul (s : bool) (a b : Z) : cond_Zopp s a * b = cond_Zopp s (a * b).
Proof. destruct s; cbn [cond_Zopp]; lia. Qed.

(** The sum and the difference of two finite floats are the exact sum and
    difference of their values, rounded. *)
Lemma SFadd_finite (sx sy : bool) (mx my : positive) (ex ey : Z) :
  valid_binary (S754_finite sx mx ex) = true ->
  valid_binary (S754_finite sy my ey) = true ->
  exists z e,
    -1074 <= e /\
    SFadd prec emax (S754_finite sx mx ex) (S754_finite sy my ey)
    = binary_normalize prec emax z e false /\
    z * 2 ^ (e + 1074)
    = SV (S754_finite sx mx ex) + SV (S754_finite sy my ey).
Proof.
  intros Vx Vy.
  destruct (valid_finite _ _ _ Vx) as (Hx & _).
  destruct (valid_finite _ _ _ Vy) as (Hy & _).
  eexists. exists (Z.min ex ey). split; [lia|]. split; [reflexivity|].
  rewrite Z.mul_add_distr_r, !cond_Zopp_mul, !shl_align_value by lia.
  reflexivity.
Qed.

Lemma SFsub_finite (sx sy : bool) (mx my : positive) (ex ey : Z) :
  valid_binary (S754_finite sx mx ex) = true ->
  valid_binary (S754_finite sy my ey) = true ->
  exists z e,
    -1074 <= e /\
    SFsub prec emax (S754_finite sx mx ex) (S754_finite sy my ey)
    = binary_normalize prec emax z e false /\
    z * 2 ^ (e + 1074)
    = SV (S754_finite sx mx ex) - SV (S754_finite sy my ey).
Proof.
  intros Vx Vy.
  destruct (valid_finite _ _ _ Vx) as (Hx & _).
  destruct (valid_finite _ _ _ Vy) as (Hy & _).
  eexists. exists (Z.min ex ey). split; [lia|]. split; [reflexivity|].
  rewrite Z.mul_sub_distr_r, !cond_Zopp_mul, !shl_align_value by lia.
  reflexivity.
Qed.

(** [0 <= f]: a zero, a positive number or plus infinity. *)
Lemma SFleb_zero (f : spec_float) :
  SFleb pzero f = true <->
  match f with
  | S754_zero _ => True
  | S754_infinity s | S754_finite s _ _ => s = false
  | S754_nan => False
  end.
Proof.
  destruct f as [s|s| |s m e]; cbn; try destruct s; split; auto; discriminate.
Qed.

Lemma SFleb_refl (f : spec_float) : f <> S754_nan -> SFleb f f = true.
Proof.
  destruct f as [s|s| |s m e]; intros N; try congruence; unfold SFleb; cbn.
  - reflexivity.
  - destruct s; reflexivity.
  - rewrite Z.compare_refl.
    change (Pos.compare_cont Eq m m) with (m ?= m)%positive.
    rewrite Pos.compare_refl. destruct s; reflexivity.
Qed.

(** Adding a float that is not negative does not lower a float that is
    not negative. *)
Lemma SFadd_nonneg (x y : spec_float) :
  valid_binary x = true -> valid_binary y = true ->
  valid_binary (SFadd prec emax x y) = true ->
  SFleb pzero x = true -> SFleb pzero y = true ->
  SFleb x (SFadd prec emax x y) = true /\
  SFleb pzero (SFadd prec emax x y) = true.
Proof.
  intros Vx Vy Vr Px Py.
  apply SFleb_zero in Px. apply SFleb_zero in Py.
  destruct x as [sx|sx| |sx mx ex]; try contradiction;
  destruct y as [sy|sy| |sy my ey]; try contradiction; subst.
  - destruct sx, sy; split; reflexivity.
  - split; reflexivity.
  - split; reflexivity.
  - split; reflexivity.
  - split; reflexivity.
  - split; reflexivity.
  - cbn [SFadd]. split; [apply SFleb_refl; discriminate|reflexivity].
  - split; reflexivity.
  - destruct (SFadd_finite false false mx my ex ey Vx Vy) as (z & e & He & Eq & Ez).
    rewrite Eq in *.
    pose proof (valid_value _ _ _ Vx). pose proof (valid_value _ _ _ Vy).
    cbn [SV cond_Zopp] in Ez.
    split.
    + apply normalize_above; auto. cbn [SV cond_Zopp]. lia.
    + apply normalize_above; auto. unfold pzero. cbn [SV]. lia.
Qed.

(** Rounding keeps the sign it is given. *)
Lemma binary_round_aux_sign (s : bool) (m e : Z) (l : location) :
  match binary_round_aux prec emax s m e l with
  | S754_zero s1 | S754_infinity s1 | S754_finite s1 _ _ => s1 = s
  | S754_nan => True
  end.
Proof.
  unfold binary_round_aux.
  destruct (shr_fexp prec emax m e l) as [r1 e1].
  destruct (shr_fexp prec emax _ e1 loc_Exact) as [r2 e2].
  destruct (shr_m r2); [reflexivity| |exact I].
  destruct (Z.leb e2 (Z.sub emax prec)); reflexivity.
Qed.

Lemma SFcompare_antisym (a b : spec_float) :
  SFcompare b a = option_map CompOpp (SFcompare a b).
Proof.
  destruct a as [sa|sa| |sa ma ea], b as [sb|sb| |sb mb eb]; cbn;
    try destruct sa; try destruct sb; try reflexivity.
  - rewrite (Z.compare_antisym ea eb).
    change (Pos.compare_cont Eq mb ma) with (mb ?= ma)%positive.
    change (Pos.compare_cont Eq ma mb) with (ma ?= mb)%positive.
    rewrite (Pos.compare_antisym ma mb).
    destruct (ea ?= eb); cbn; try reflexivity.
  - rewrite (Z.compare_antisym ea eb).
    change (Pos.compare_cont Eq mb ma) with (mb ?= ma)%positive.
    change (Pos.compare_cont Eq ma mb) with (ma ?= mb)%positive.
    rewrite (Pos.compare_antisym ma mb).
    destruct (ea ?= eb); cbn; try reflexivity.
Qed.

Lemma SFleb_not_ltb (a b : spec_float) : SFleb a b = true -> SFltb b a = false.
Proof.
  unfold SFleb, SFltb. rewrite (SFcompare_antisym a b).
  destruct (SFcompare a b) as [[| |]|]; cbn; congruence.
Qed.

Lemma SFleb_ltb_eqb (a b : spec_float) : SFleb a b = SFltb a b || SFeqb a b.
Proof.
  unfold SFleb, SFltb, SFeqb. destruct (SFcompare a b) as [[| |]|]; reflexivity.
Qed.

Lemma SFeqb_sym (a b : spec_float) : SFeqb a b = SFeqb b a.
Proof.
  unfold SFeqb. rewrite (SFcompare_antisym a b).
  destruct (SFcompare a b) as [[| |]|]; reflexivity.
Qed.

Ltac rounded :=
  match goal with
  | |- context [binary_round_aux prec emax ?sg ?m ?e ?l] =>
      let S := fresh "S" in
      let s1 := fresh "s" in
      pose proof (binary_round_aux_sign sg m e l) as S;
      destruct (binary_round_aux prec emax sg m e l) as [s1|s1| |s1 ? ?];
      try subst s1; cbn; auto
  end.

(** A product of a float that is not above zero with one that is not
    below it is not above zero. *)
Lemma SFmul_down (a d : spec_float) :
  SFltb pzero a = false -> SFleb pzero d = true ->
  SFltb pzero (SFmul prec emax a d) = false.
Proof.
  destruct a as [[|]|[|]| |[|] ma ea], d as [[|]|[|]| |[|] md ed];
    cbn; try discriminate; try reflexivity.
  intros _ _. rounded.
Qed.

(** A product of a float that is above zero with one that is not below it
    is not below zero. *)
Lemma SFmul_up (v d : spec_float) :
  SFleb v pzero = false -> SFleb pzero d = true ->
  SFltb (SFmul prec emax v d) pzero = false.
Proof.
  destruct v as [[|]|[|]| |[|] mv ev], d as [[|]|[|]| |[|] md ed];
    cbn; try discriminate; try reflexivity.
  intros _ _. rounded.
Qed.

(** A quotient of a float that is not above zero by one that is above it
    is not above zero. *)
Lemma SFdiv_down (n m : spec_float) :
  SFltb pzero n = false -> SFleb m pzero = false ->
  SFltb pzero (SFdiv prec emax n m) = false.
Proof.
  destruct n as [[|]|[|]| |[|] mn en], m as [[|]|[|]| |[|] mm em];
    cbn; try discriminate; try reflexivity.
  intros _ _.
  destruct (SFdiv_core_binary prec emax (Zpos mn) en (Zpos mm) em) as [[mz ez] lz].
  rounded.
Qed.

(** Above a float that is not below zero is above zero. *)
Lemma SFleb_above (m d : spec_float) :
  SFleb m d = false -> SFleb pzero d = true -> SFleb m pzero = false.
Proof.
  destruct m as [[|]|[|]| |[|] mm em], d as [[|]|[|]| |[|] md ed];
    cbn; try discriminate; try reflexivity.
Qed.

(** [x <= y] makes [x - y] not above zero. *)
Lemma SFsub_sign (x y : spec_float) :
  valid_binary x = true -> valid_binary y = true ->
  valid_binary (SFsub prec emax x y) = true ->
  SFleb x y = true ->
  SFltb pzero (SFsub prec emax x y) = false.
Proof.
  intros Vx Vy Vr L.
  destruct x as [sx|sx| |sx mx ex]; destruct y as [sy|sy| |sy my ey];
    try (solve [destruct sx; try discriminate L; try reflexivity;
                destruct sy; try discriminate L; reflexivity]);
    try discriminate L; try reflexivity.
  destruct (SFsub_finite sx sy mx my ex ey Vx Vy) as (z & e & He & Eq & Ez).
  rewrite Eq in *.
  rewrite SFleb_value in L by auto. apply Z.leb_le in L.
  apply SFleb_not_ltb. apply normalize_below; auto. unfold pzero. cbn [SV]. lia.
Qed.

(** Taking away a float that is not below zero does not raise a float
    that is above zero. *)
Lemma SFsub_down (x q : spec_float) :
  valid_binary x = true -> valid_binary q = true ->
  valid_binary (SFsub prec emax x q) = true ->
  SFltb pzero x = true -> SFltb q pzero = false ->
  SFltb x (SFsub prec emax x q) = false.
Proof.
  intros Vx Vq Vr Px Pq.
  destruct x as [[|]|[|]| |[|] mx ex]; try discriminate Px;
  destruct q as [[|]|[|]| |[|] mq eq]; try discriminate Pq; try reflexivity;
    try (cbn [SFsub]; apply SFleb_not_ltb, SFleb_refl; discriminate).
  destruct (SFsub_finite false false mx mq ex eq Vx Vq) as (z & e & He & Eq & Ez).
  rewrite Eq in *.
  pose proof (valid_value _ _ _ Vq).
  apply SFleb_not_ltb. apply normalize_below; auto.
  cbn [SV cond_Zopp] in *. lia.
Qed.

(** Taking away a float that is not above zero does not lower a float
    that is above zero, and leaves it above zero. *)
Lemma SFsub_up (v p : spec_float) :
  valid_binary v = true -> valid_binary p = true ->
  valid_binary (SFsub prec emax v p) = true ->
  SFleb v pzero = false -> SFltb pzero p = false ->
  SFleb (SFsub prec emax v p) pzero = false /\
  SFltb (SFsub prec emax v p) v = false.
Proof.
  intros Vv Vp Vr Pv Pp.
  destruct v as [[|]|[|]| |[|] mv ev]; try discriminate Pv;
  destruct p as [[|]|[|]| |[|] mp ep]; try discriminate Pp;
    try (split; reflexivity);
    try (cbn [SFsub]; split; [reflexivity|];
         apply SFleb_not_ltb, SFleb_refl; discriminate).
  destruct (SFsub_finite false true mv mp ev ep Vv Vp) as (z & e & He & Eq & Ez).
  rewrite Eq in *.
  pose proof (valid_value _ _ _ Vp).
  assert (L : SFleb (S754_finite false mv ev)
                (binary_normalize prec emax z e false) = true).
  { apply normalize_above; auto. cbn [SV cond_Zopp] in *. lia. }
  split; [|apply SFleb_not_ltb; exact L].
  destruct (binary_normalize prec emax z e false) as [[|]|[|]| |[|] mr er];
    try discriminate L; reflexivity.
Qed.

(** A difference of two floats in strict order is above zero. *)
Lemma SFsub_pos (x y : spec_float) :
  valid_binary x = true -> valid_binary y = true ->
  valid_binary (SFsub prec emax x y) = true ->
  SFltb y x = true ->
  SFltb pzero (SFsub prec emax x y) = true.
Proof.
  intros Vx Vy Vr L.
  destruct x as [sx|sx| |sx mx ex]; destruct y as [sy|sy| |sy my ey];
    try (solve [destruct sx; try discriminate L; try reflexivity;
                destruct sy; try discriminate L; reflexivity]);
    try discriminate L; try reflexivity.
  destruct (SFsub_finite sx sy mx my ex ey Vx Vy) as (z & e & He & Eq & Ez).
  rewrite Eq in *.
  rewrite SFltb_value in L by auto. apply Z.ltb_lt in L.
  assert (A : SFleb (S754_finite false 1 (-1074))
                (binary_normalize prec emax z e false) = true).
  { apply normalize_above; auto. cbn [SV cond_Zopp]. change (2 ^ (-1074 + 1074)) with 1.
    lia. }
  destruct (binary_normalize prec emax z e false) as [[|]|[|]| |[|] mr er];
    try discriminate A; reflexivity.
Qed.

(** A product below half the least positive float is rounded to zero. *)
Lemma SFmul_underflow (sx sy : bool) (mx my : positive) (ex ey : Z) :
  valid_binary (S754_finite sx mx ex) = true ->
  valid_binary (S754_finite sy my ey) = true ->
  Zpos mx * 2 ^ (ex + 1074) * (Zpos my * 2 ^ (ey + 1074)) < 2 ^ 1073 ->
  SFmul prec emax (S754_finite sx mx ex) (S754_finite sy my ey)
  = S754_zero (xorb sx sy).
Proof.
  intros Vx Vy L.
  destruct (valid_finite _ _ _ Vx) as (Hx & _).
  destruct (valid_finite _ _ _ Vy) as (Hy & _).
  cbn [SFmul]. set (M := (mx * my)%positive). set (e := ex + ey).
  pose proof (digits2_pos_bounds M) as [DL DU].
  set (d := Zpos (digits2_pos M)) in *.
  assert (Hd : 0 < d) by (unfold d; lia).
  assert (LM : Zpos M * 2 ^ (e + 2148) < 2 ^ 1073).
  { unfold M, e. rewrite Pos2Z.inj_mul.
    replace (ex + ey + 2148) with ((ex + 1074) + (ey + 1074)) by lia.
    rewrite pow_split by lia. lia. }
  assert (De : d + e <= -1075).
  { assert (P : 2 ^ (d - 1 + (e + 2148)) < 2 ^ 1073).
    { rewrite pow_split by (unfold e; lia).
      assert (0 < 2 ^ (e + 2148)) by (apply pow2_pos; unfold e; lia). nia. }
    apply Z.pow_lt_mono_r_iff in P; lia. }
  set (n := -1074 - e).
  assert (Hn : d + 1 <= n) by (unfold n; lia).
  unfold binary_round_aux.
  rewrite (shr_fexp_shift M e n) by (try rewrite fexp_val; fold d; unfold n; lia).
  assert (Small : Zpos M < 2 ^ (n - 1)).
  { assert (2 ^ d <= 2 ^ (n - 1)) by (apply Z.pow_le_mono_r; lia). lia. }
  assert (Pn1 : 0 < 2 ^ (n - 1)) by (apply pow2_pos; lia).
  assert (Small' : Zpos M < 2 ^ n).
  { assert (2 ^ (n - 1) <= 2 ^ n) by (apply Z.pow_le_mono_r; lia). lia. }
  rewrite (Z.div_small (Zpos M) (2 ^ n)) by lia.
  rewrite (Z.div_small (Zpos M) (2 ^ (n - 1))) by lia.
  rewrite (Z.mod_small (Zpos M) (2 ^ (n - 1))) by lia.
  cbn [Z.odd Z.eqb negb shr_m loc_of_shr_record round_nearest_even].
  replace (e + n) with (-1074) by (unfold n; lia).
  rewrite (shr_fexp_fixed 0 (-1074)) by reflexivity.
  reflexivity.
Qed.

(** Valid floats of the same value are the same float. *)
Lemma valid_value_inj (m1 m2 : positive) (e1 e2 : Z) :
  valid_binary (S754_finite false m1 e1) = true ->
  valid_binary (S754_finite false m2 e2) = true ->
  Zpos m1 * 2 ^ (e1 + 1074) = Zpos m2 * 2 ^ (e2 + 1074) ->
  m1 = m2 /\ e1 = e2.
Proof.
  intros V1 V2 E.
  destruct (valid_finite _ _ _ V1) as (H1 & _).
  destruct (Z.lt_trichotomy e1 e2) as [L|[L|L]].
  - pose proof (value_by_exponent m1 m2 e1 e2 V1 V2 L). lia.
  - subst e2. split; [|reflexivity].
    assert (0 < 2 ^ (e1 + 1074)) by (apply pow2_pos; lia).
    assert (Zpos m1 = Zpos m2) by nia. congruence.
  - pose proof (value_by_exponent m2 m1 e2 e1 V2 V1 L). lia.
Qed.

(** No valid float lies strictly between a float and its predecessor in
    the same binade. *)
Lemma value_gap (mt mS : positive) (et eS : Z) :
  valid_binary (S754_finite false mt et) = true ->
  valid_binary (S754_finite false mS eS) = true ->
  4503599627370496 < Zpos mS ->
  Zpos mt * 2 ^ (et + 1074) <= Zpos mS * 2 ^ (eS + 1074) ->
  Zpos mt * 2 ^ (et + 1074) = Zpos mS * 2 ^ (eS + 1074) \/
  Zpos mt * 2 ^ (et + 1074) + 2 ^ (eS + 1074) <= Zpos mS * 2 ^ (eS + 1074).
Proof.
  intros Vt VS Big L.
  destruct (valid_finite _ _ _ Vt) as (Ht & Hdt & _).
  destruct (valid_finite _ _ _ VS) as (HS & _).
  assert (GS : 0 < 2 ^ (eS + 1074)) by (apply pow2_pos; lia).
  destruct (Z.lt_trichotomy et eS) as [C|[C|C]].
  - right.
    pose proof (digits2_pos_bounds mt) as [_ U].
    assert (2 ^ Zpos (digits2_pos mt) <= 2 ^ 53) by (apply Z.pow_le_mono_r; lia).
    change (2 ^ 53) with 9007199254740992 in *.
    replace (eS + 1074) with ((eS - et - 1) + 1 + (et + 1074)) in * by lia.
    rewrite (pow_split (eS - et - 1 + 1) (et + 1074)),
      (pow_split (eS - et - 1) 1) in * by lia.
    change (2 ^ 1) with 2 in *.
    set (A := 2 ^ (et + 1074)) in *. set (P := 2 ^ (eS - et - 1)) in *.
    assert (0 < A) by (apply pow2_pos; lia).
    assert (0 < P) by (apply pow2_pos; lia).
    assert (Zpos mt * A < 9007199254740992 * A) by nia.
    assert (A <= P * A) by nia.
    assert (9007199254740992 * (P * A) + P * 2 * A <= Zpos mS * (P * 2 * A)) by nia.
    lia.
  - subst et.
    destruct (Z.eq_dec (Zpos mt) (Zpos mS)) as [E|N].
    + left. rewrite E. reflexivity.
    + right. assert (Zpos mt <= Zpos mS) by nia. nia.
  - pose proof (value_by_exponent mS mt eS et VS Vt C). lia.
Qed.

(** Adding a step to a float that is not above a bound [S] which the step
    no longer moves gives a float that is not above [S]. *)
Lemma SFadd_capped (x : spec_float) (md mS : positive) (ed eS : Z) :
  valid_binary x = true ->
  valid_binary (S754_finite false md ed) = true ->
  valid_binary (S754_finite false mS eS) = true ->
  valid_binary (SFadd prec emax x (S754_finite false md ed)) = true ->
  4503599627370496 < Zpos mS ->
  Zpos md * 2 ^ (ed + 1074) <= 2 ^ (eS + 1074) ->
  SFadd prec emax (S754_finite false mS eS) (S754_finite false md ed)
  = S754_finite false mS eS ->
  SFleb pzero x = true ->
  SFleb x (S754_finite false mS eS) = true ->
  SFleb (SFadd prec emax x (S754_finite false md ed)) (S754_finite false mS eS)
  = true.
Proof.
  intros Vx Vd VS Vr Big Small Fix Px Lx.
  destruct (valid_finite _ _ _ VS) as (HS & _).
  assert (GS : 0 < 2 ^ (eS + 1074)) by (apply pow2_pos; lia).
  apply SFleb_zero in Px.
  destruct x as [sx|sx| |sx mx ex]; try contradiction; subst.
  - cbn [SFadd]. rewrite SFleb_value by auto. cbn [SV cond_Zopp].
    apply Z.leb_le. nia.
  - discriminate Lx.
  - rewrite SFleb_value in Lx by auto. cbn [SV cond_Zopp] in Lx.
    apply Z.leb_le in Lx.
    destruct (value_gap mx mS ex eS Vx VS Big Lx) as [E|G].
    + destruct (valid_value_inj mx mS ex eS Vx VS E) as [-> ->].
      rewrite Fix. apply SFleb_refl. discriminate.
    + destruct (SFadd_finite false false mx md ex ed Vx Vd)
        as (z & e & He & Eq & Ez).
      rewrite Eq in *. apply normalize_below; auto.
      cbn [SV cond_Zopp] in *. lia.
Qed.

(** Floats in order that are both numbers are in strict order when the
    test [<=] fails. *)
Lemma SFleb_false_ltb (a b : spec_float) :
  SFleb a b = false -> a <> S754_nan -> b <> S754_nan -> SFltb b a = true.
Proof.
  unfold SFleb, SFltb. rewrite (SFcompare_antisym a b).
  destruct a as [sa|sa| |sa ma ea]; destruct b as [sb|sb| |sb mb eb];
    try congruence;
    destruct (SFcompare _ _) as [[| |]|] eqn:E; cbn; try congruence;
    cbn in E; try destruct sa; try destruct sb; discriminate E.
Qed.

(** Between zero and a finite float there are only numbers. *)
Lemma real_between (f : spec_float) (mS : positive) (eS : Z) :
  SFleb pzero f = true -> SFleb f (S754_finite false mS eS) = true ->
  is_real f = true.
Proof.
  destruct f as [s|[|]| |s m e]; intros P L; try discriminate; reflexivity.
Qed.

Lemma SFltb_grows (a b : spec_float) (mS : positive) (eS : Z) :
  valid_binary a = true -> valid_binary b = true ->
  SFleb pzero a = true -> SFleb a (S754_finite false mS eS) = true ->
  SFleb pzero b = true -> SFleb b (S754_finite false mS eS) = true ->
  SFltb a b = true ->
  (0 <= SV a < SV b)%Z.
Proof.
  intros Va Vb Pa La Pb Lb L.
  pose proof (real_between a mS eS Pa La) as Ra.
  pose proof (real_between b mS eS Pb Lb) as Rb.
  rewrite (SFltb_value a b Va Vb Ra Rb) in L. apply Z.ltb_lt in L.
  split; [|exact L].
  apply SFleb_zero in Pa.
  destruct a as [s|s| |s m e]; try discriminate Ra; cbn [SV]; [lia|].
  subst s. cbn [cond_Zopp]. pose proof (valid_value _ _ _ Va). lia.
Qed.

Lemma nat_above (b : Z) : exists n : nat, (b < Z.of_nat n)%Z.
Proof. exists (S (Z.to_nat b)). lia. Qed.

End Rounding.

(** ** The primitive operations *)

Section Binary64.

Local Open Scope float_scope.

Lemma Prim2SF_zero : Prim2SF 0 = pzero.
Proof. reflexivity. Qed.

Lemma valid_add (x y : float) :
  valid_binary (SFadd prec emax (Prim2SF x) (Prim2SF y)) = true.
Proof. rewrite <- add_spec. apply Prim2SF_valid. Qed.

Lemma valid_sub (x y : float) :
  valid_binary (SFsub prec emax (Prim2SF x) (Prim2SF y)) = true.
Proof. rewrite <- sub_spec. apply Prim2SF_valid. Qed.

(** [x + y] with neither below zero: not below [x], not below zero. *)
Lemma add_not_below (x y : float) :
  (0 <=? x) = true -> (0 <=? y) = true ->
  (x <=? x + y) = true /\ (0 <=? x + y) = true.
Proof.
  rewrite !leb_spec, add_spec, Prim2SF_zero.
  apply SFadd_nonneg; auto using Prim2SF_valid, valid_add.
Qed.

(** [x - q] with [x] above zero and [q] not below zero: not above [x]. *)
Lemma sub_not_above (x q : float) :
  (0 <? x) = true -> (q <? 0) = false -> (x <? x - q) = false.
Proof.
  rewrite !ltb_spec, sub_spec, Prim2SF_zero.
  apply SFsub_down; auto using Prim2SF_valid, valid_sub.
Qed.

(** [v - p] with [v] above zero and [p] not above zero: above zero and
    not below [v]. *)
Lemma sub_not_below (v p : float) :
  (v <=? 0) = false -> (0 <? p) = false ->
  (v - p <=? 0) = false /\ (v - p <? v) = false.
Proof.
  rewrite !leb_spec, !ltb_spec, sub_spec, Prim2SF_zero.
  apply SFsub_up; auto using Prim2SF_valid, valid_sub.
Qed.

(** [x <= y] makes [x - y] not above zero. *)
Lemma sub_sign (x y : float) : (x <=? y) = true -> (0 <? x - y) = false.
Proof.
  rewrite leb_spec, ltb_spec, sub_spec, Prim2SF_zero.
  apply SFsub_sign; auto using Prim2SF_valid, valid_sub.
Qed.

(** [y < x] makes [x - y] above zero. *)
Lemma sub_positive (x y : float) : (y <? x) = true -> (0 <? x - y) = true.
Proof.
  rewrite !ltb_spec, sub_spec, Prim2SF_zero.
  apply SFsub_pos; auto using Prim2SF_valid, valid_sub.
Qed.

Lemma mul_not_above (a d : float) :
  (0 <? a) = false -> (0 <=? d) = true -> (0 <? a * d) = false.
Proof.
  rewrite !ltb_spec, leb_spec, mul_spec, Prim2SF_zero. apply SFmul_down.
Qed.

Lemma mul_not_below (v d : float) :
  (v <=? 0) = false -> (0 <=? d) = true -> (v * d <? 0) = false.
Proof.
  rewrite !leb_spec, ltb_spec, mul_spec, Prim2SF_zero. apply SFmul_up.
Qed.

Lemma div_not_above (n m : float) :
  (0 <? n) = false -> (m <=? 0) = false -> (0 <? n / m) = false.
Proof.
  rewrite !ltb_spec, leb_spec, div_spec, Prim2SF_zero. apply SFdiv_down.
Qed.

Lemma above_not_below_zero (m d : float) :
  (m <=? d) = false -> (0 <=? d) = true -> (m <=? 0) = false.
Proof.
  rewrite !leb_spec, Prim2SF_zero. apply SFleb_above.
Qed.

Lemma leb_not_ltb (a b : float) : (a <=? b) = true -> (b <? a) = false.
Proof. rewrite leb_spec, ltb_spec. apply SFleb_not_ltb. Qed.

Lemma leb_ltb_eqb (a b : float) : (a <=? b) = (a <? b) || (a =? b).
Proof. rewrite leb_spec, ltb_spec, eqb_spec. apply SFleb_ltb_eqb. Qed.

Lemma eqb_sym (a b : float) : (a =? b) = (b =? a).
Proof. rewrite !eqb_spec. apply SFeqb_sym. Qed.

Lemma ltb_not_leb (a b : float) : (a <? b) = true -> (b <=? a) = false.
Proof.
  intros L. destruct (b <=? a) eqn:E; [|reflexivity].
  apply leb_not_ltb in E. congruence.
Qed.

(** A mass that is not [<=] a dry mass which is a number, and whose
    weight compares, is strictly above the dry mass. *)
Lemma above_strictly (m d x y : float) :
  (m <=? d) = false -> (0 <=? d) = true -> (x <=? m * y) = true ->
  (d <? m) = true.
Proof.
  rewrite !leb_spec, ltb_spec, mul_spec, Prim2SF_zero.
  intros A B C. apply SFleb_false_ltb; [exact A| |].
  - intros N. rewrite N in C. unfold SFleb in C.
    destruct (Prim2SF x); discriminate C.
  - intros N. rewrite N in B. discriminate B.
Qed.

End Binary64.

(** * The loop in binary64 *)

Section Flight.

Local Open Scope float_scope.

Variable K : consts float.

(** *** The clock *)

Section Clock.

Hypothesis Hdt : (0 <=? dt K) = true.

Lemma elapsed_not_below (n : nat) :
  (0 <=? elapsed K n) = true /\ (elapsed K n <=? elapsed K (S n)) = true.
Proof.
  induction n as [|n [IH _]].
  - split; [reflexivity|]. cbn [elapsed].
    exact (proj1 (add_not_below 0 (dt K) eq_refl Hdt)).
  - cbn [elapsed].
    destruct (add_not_below (elapsed K n) (dt K) IH Hdt) as [A B].
    split; [exact B|].
    exact (proj1 (add_not_below (elapsed K n + dt K) (dt K) B Hdt)).
Qed.

Lemma times_not_falling (fuel : nat) (s : vars float) :
  state_of (loop K fuel (init K)) = Some s ->
  chainb PrimFloat.leb (time_values s) = true /\
  Forall (fun x => (0 <=? x) = true) (time_values s).
Proof.
  intros E.
  destruct (final_lists K fuel s E) as (n & s0 & R & E1 & _).
  destruct (reached_trace K n s0 R) as (_ & Etv & _).
  rewrite E1, Etv. split.
  - apply chainb_map_seq. intros k. exact (proj2 (elapsed_not_below k)).
  - apply Forall_forall. intros x Hx. apply in_map_iff in Hx.
    destruct Hx as (k & <- & _). exact (proj1 (elapsed_not_below k)).
Qed.

(** *** Altitude *)

(** A pass that computes a velocity which is not [<= 0] does not raise
    the altitude. *)
Lemma pass_not_up (s : vars float) :
  (0 <? current_altitude s) = true ->
  (velocity_after K s <=? 0) = false ->
  (current_altitude s <? altitude_after K s) = false.
Proof.
  intros Eh Ev. unfold altitude_after.
  apply sub_not_above; [exact Eh|].
  apply mul_not_below; [exact Ev|exact Hdt].
Qed.

Lemma reached_altitudes (n : nat) (s : vars float) :
  reached K n s ->
  exists alts : list float,
    altitude_values s = map (fun a => a / 10) alts /\
    chainb (fun a b => negb (a <? b)) (venting_altitude K :: alts) = true /\
    last_of (venting_altitude K :: alts) = Some (current_altitude s).
Proof.
  induction 1 as [|n s s1 R IH Eh Eb].
  - exists []. repeat split.
  - destruct IH as (alts & Ea & Ch & La).
    destruct (body_Continue K s s1 Eb)
      as (_ & _ & Ev & _ & _ & Ealt & _ & _ & _ & Eav & _).
    exists (alts ++ [current_altitude s1]). split; [|split].
    + rewrite Eav, Ea, map_app, Ealt. reflexivity.
    + change (venting_altitude K :: alts ++ [current_altitude s1])
        with ((venting_altitude K :: alts) ++ [current_altitude s1]).
      apply chainb_snoc; [exact Ch|].
      intros x Lx. rewrite La in Lx. injection Lx as <-.
      rewrite Ealt. rewrite (pass_not_up s Eh Ev). reflexivity.
    + change (venting_altitude K :: alts ++ [current_altitude s1])
        with ((venting_altitude K :: alts) ++ [current_altitude s1]).
      apply last_of_snoc.
Qed.

End Clock.

(** *** Velocities that passed the test *)

Lemma reached_velocities (n : nat) (s : vars float) :
  reached K n s ->
  Forall (fun v => (v <=? 0) = false) (velocity_values s).
Proof.
  induction 1 as [|n s s1 R IH Eh Eb]; [constructor|].
  destruct (body_Continue K s s1 Eb)
    as (_ & _ & Ev & _ & _ & _ & _ & _ & _ & _ & Evv & _).
  rewrite Evv. apply Forall_app. split; [exact IH|].
  constructor; [exact Ev|constructor].
Qed.

End Flight.

(** ** The trace against the final state *)

Section FinalState.

Local Open Scope float_scope.

(** C5, as the code has it.  For a run with [dt >= 0] that leaves the loop
    with a trace that is not empty: when the loop is left at the [while]
    test (ground reached) the last pass was recorded and the final [t] is
    the last recorded time itself; when it is left by one of the two
    [break]s (water depleted, hover) the final [t] is the last recorded
    time plus [dt], which is not earlier.  The altitudes of the recorded
    passes, of which the trace holds a tenth each, never rise from the
    venting altitude on, and every recorded velocity failed the test
    [<= 0]. *)
Theorem last_entry_and_final_state (K : consts float) (fuel : nat)
    (why : exit) (s : vars float) (x : float) :
  (0 <=? dt K) = true ->
  loop K fuel (init K) = Done why s ->
  last_of (time_values s) = Some x ->
  (why = GroundReached -> t s = x) /\
  (why <> GroundReached -> t s = x + dt K /\ (x <=? t s) = true) /\
  (exists alts : list float,
     altitude_values s = map (fun a => a / 10) alts /\
     chainb (fun a b => negb (a <? b)) (venting_altitude K :: alts) = true) /\
  Forall (fun v => (v <=? 0) = false) (velocity_values s).
Proof.
  intros Hd L Lx.
  pose proof (loop_from_reached K fuel 0 (init K) (reached_init K)) as R.
  rewrite L in R. destruct R as (k & s0 & R & C).
  destruct (reached_trace K k s0 R) as (Et0 & Etv & _ & _ & _ & _ & _ & Last).
  destruct (reached_altitudes K Hd k s0 R) as (alts & Ea & Ch & _).
  pose proof (reached_velocities K k s0 R) as Pos.
  destruct C as [(-> & -> & _)|(_ & Eb)].
  - assert (N : k <> 0%nat).
    { intros ->. rewrite Etv in Lx. discriminate. }
    destruct (Last N) as (Lt & _). rewrite Lt in Lx. injection Lx as <-.
    split; [reflexivity|]. split; [intros C; contradiction|].
    split; [exists alts; split; assumption|exact Pos].
  - destruct (body_Break K s0 s why Eb)
      as (Et & _ & Etv1 & Eav & Evv & _ & _ & W).
    rewrite Etv1 in Lx.
    assert (N : k <> 0%nat).
    { intros ->. rewrite Etv in Lx. discriminate. }
    destruct (Last N) as (Lt & _). rewrite Lt in Lx. injection Lx as <-.
    rewrite Eav, Evv.
    split; [|split; [|split; [exists alts; split; assumption|exact Pos]]].
    + intros ->. destruct W as [(? & _)|(? & _)]; discriminate.
    + intros _. rewrite Et. unfold time_after. split; [reflexivity|].
      rewrite Et0.
      exact (proj2 (elapsed_not_below K Hd k)).
Qed.

End FinalState.

Lemma last_entry_and_final_state_witness :
  exists (s : vars float) (x : float),
    loop default_consts 47 (init default_consts) = Done HoverAchieved s /\
    last_of (time_values s) = Some x /\
    t s = PrimFloat.add x (dt default_consts) /\
    PrimFloat.leb x (t s) = true.
Proof.
  assert (E : exists s x,
             loop default_consts 47 (init default_consts)
             = Done HoverAchieved s /\
             last_of (time_values s) = Some x)
    by (do 2 eexists; split; vm_compute; reflexivity).
  destruct E as (s & x & E & Lx). exists s, x.
  split; [exact E|]. split; [exact Lx|].
  refine (proj1 (proj2
            (last_entry_and_final_state default_consts 47 HoverAchieved s x
               eq_refl E Lx)) _).
  discriminate.
Defined.

(** ** The entries of the trace *)

(** C8, as the code has it.  A pass that does not leave the loop appends
    exactly one entry to each of the five lists: the new [t], the new
    altitude divided by 10, the new velocity, the water above the dry mass
    divided by 10, and the new acceleration.  However the loop ends, the
    five lists have one common length [n], and entry [k] (from 1) of the
    times is [elapsed k], the result of adding [dt] to 0 [k] times in
    succession, each sum rounded.  In binary64 with [dt >= 0] no recorded
    time is below the one before it, and in the script's own run the 46
    recorded times rise strictly. *)
Theorem trace_entries :
  (forall (F : Type) (A : Arith F) (K : consts F) (s s1 : vars F),
     body K s = Continue s1 ->
     exists m a : F,
       current_mass s1 = Some m /\ acceleration s1 = Some a /\
       time_values s1 = time_values s ++ [t s1] /\
       altitude_values s1
       = altitude_values s ++ [quot (current_altitude s1) ten] /\
       velocity_values s1 = velocity_values s ++ [current_velocity s1] /\
       water_remaining_values s1
       = water_remaining_values s ++ [quot (py_max0 (sub m (dry_mass K))) ten] /\
       acceleration_values s1 = acceleration_values s ++ [a]) /\
  (forall (F : Type) (A : Arith F) (K : consts F) (fuel : nat) (s : vars F),
     state_of (loop K fuel (init K)) = Some s ->
     exists n : nat,
       List.length (time_values s) = n /\
       List.length (altitude_values s) = n /\
       List.length (velocity_values s) = n /\
       List.length (water_remaining_values s) = n /\
       List.length (acceleration_values s) = n /\
       forall k : nat,
         k < n -> nth_error (time_values s) k = Some (elapsed K (S k))) /\
  (forall (K : consts float) (fuel : nat) (s : vars float),
     PrimFloat.leb 0 (dt K) = true ->
     state_of (loop K fuel (init K)) = Some s ->
     chainb PrimFloat.leb (time_values s) = true) /\
  (exists s : vars float,
     loop default_consts 47 (init default_consts) = Done HoverAchieved s /\
     List.length (time_values s) = 46 /\
     chainb PrimFloat.ltb (time_values s) = true).
Proof.
  split; [|split; [|split]].
  - intros F A K s s1 Eb.
    destruct (body_Continue K s s1 Eb)
      as (_ & _ & _ & Et & Ev & Ealt & Em & Ea & Etv & Eav & Evv & Ewv & Eacc).
    exists (mass_after K s), (acceleration_after K s).
    rewrite Et, Ev, Ealt. repeat split; assumption.
  - intros F A K fuel s E.
    destruct (final_lists K fuel s E) as (n & s0 & R & E1 & E2 & E3 & E4 & E5).
    destruct (reached_trace K n s0 R) as (_ & Etv & L2 & L3 & L4 & L5 & _).
    exists n. rewrite E1, E2, E3, E4, E5, Etv.
    repeat split; try assumption.
    + rewrite length_map, length_seq. reflexivity.
    + intros k Hk. rewrite nth_error_map, nth_error_seq.
      destruct (Nat.ltb_spec k n); [reflexivity|lia].
  - intros K fuel s Hd E. exact (proj1 (times_not_falling K Hd fuel s E)).
  - eexists. split; [vm_compute; reflexivity|].
    split; vm_compute; reflexivity.
Qed.

Lemma trace_entries_witness :
  exists s : vars float,
    state_of (loop narrow_consts 1000 (init narrow_consts)) = Some s /\
    chainb PrimFloat.leb (time_values s) = true.
Proof.
  assert (E : exists s,
             state_of (loop narrow_consts 1000 (init narrow_consts)) = Some s)
    by (eexists; vm_compute; reflexivity).
  destruct E as (s & E). exists s. split; [exact E|].
  exact (proj1 (proj2 (proj2 trace_entries)) narrow_consts 1000 s eq_refl E).
Defined.

(** ** The recorded accelerations *)



(** ** Thrust that does not exceed the weight *)

Section Weight.

Local Open Scope float_scope.

Variable K : consts float.

Hypothesis Hdt : (0 <=? dt K) = true.
Hypothesis Hdry : (0 <=? dry_mass K) = true.
Hypothesis Htv : (0 <? terminal_velocity K) = true.
Hypothesis Hpass :
  forall (n : nat) (s : vars float),
    reached K n s ->
    (0 <? current_altitude s) = true ->
    (mass_after K s <=? dry_mass K) = false ->
    (total_thrust K <=? mass_after K s * g K) = true.

(** Such a pass does not lower the velocity. *)
Lemma pass_not_slower (n : nat) (s : vars float) :
  reached K n s ->
  (0 <? current_altitude s) = true ->
  (mass_after K s <=? dry_mass K) = false ->
  (current_velocity s <=? 0) = false ->
  (velocity_after K s <=? 0) = false /\
  (velocity_after K s <? current_velocity s) = false.
Proof.
  intros R Eh Em Ev.
  pose proof (Hpass n s R Eh Em) as W.
  unfold velocity_after, acceleration_after.
  apply sub_not_below; [exact Ev|].
  apply mul_not_above; [|exact Hdt].
  apply div_not_above.
  - apply sub_sign. exact W.
  - exact (above_not_below_zero _ _ Em Hdry).
Qed.

Lemma reached_not_slower (n : nat) (s : vars float) :
  reached K n s ->
  (current_velocity s <=? 0) = false /\
  chainb (fun a b => negb (b <? a))
    (terminal_velocity K :: velocity_values s) = true /\
  last_of (terminal_velocity K :: velocity_values s)
  = Some (current_velocity s) /\
  match current_mass s with
  | Some m => (0 <? m - dry_mass K) = true
  | None => n = 0%nat
  end.
Proof.
  induction 1 as [|n s s1 R IH Eh Eb].
  - cbn. split; [exact (ltb_not_leb _ _ Htv)|]. repeat split.
  - destruct IH as (Iv & Ic & Il & _).
    destruct (body_Continue K s s1 Eb)
      as (Em & _ & _ & _ & Ev & _ & Emass & _ & _ & _ & Evv & _).
    destruct (pass_not_slower n s R Eh Em Iv) as (A & B).
    rewrite Ev, Evv, Emass. split; [exact A|]. split; [|split].
    + change (terminal_velocity K :: velocity_values s ++ [velocity_after K s])
        with ((terminal_velocity K :: velocity_values s)
                ++ [velocity_after K s]).
      apply chainb_snoc; [exact Ic|].
      intros x Lx. rewrite Il in Lx. injection Lx as <-.
      rewrite B. reflexivity.
    + change (terminal_velocity K :: velocity_values s ++ [velocity_after K s])
        with ((terminal_velocity K :: velocity_values s)
                ++ [velocity_after K s]).
      apply last_of_snoc.
    + apply sub_positive.
      exact (above_strictly _ _ _ _ Em Hdry (Hpass n s R Eh Em)).
Qed.

End Weight.

(** C4, as the code has it.  Take a run in which the total thrust does not
    exceed the current weight in any pass: [total_thrust <= current_mass *
    g] holds for the mass of every pass that gets past the water test.
    (That the thrust is at most the wet weight at the start is not enough,
    because the weight falls as water is ejected.)  With [dt >= 0], a dry
    mass [>= 0] and a terminal velocity above 0, the vehicle never
    decelerates: no pass lowers the velocity, the velocity stays above 0,
    and the loop is never left for hover.  The flight is reported as an
    impact unless it ends at an altitude of exactly 0; water remains when
    the run ends at the ground, and none is left when the loop is left as
    water-depleted. *)
Theorem no_hover_below_weight (K : consts float) (fuel : nat)
    (r : report float) :
  PrimFloat.leb 0 (dt K) = true ->
  PrimFloat.leb 0 (dry_mass K) = true ->
  PrimFloat.ltb 0 (terminal_velocity K) = true ->
  (forall (n : nat) (s : vars float),
     reached K n s ->
     PrimFloat.ltb 0 (current_altitude s) = true ->
     PrimFloat.leb (mass_after K s) (dry_mass K) = false ->
     PrimFloat.leb (total_thrust K) (mass_after K s * g K) = true) ->
  simulate K fuel = Reported r ->
  why_stopped r <> HoverAchieved /\
  PrimFloat.leb (current_velocity (final r)) 0 = false /\
  chainb (fun a b => negb (PrimFloat.ltb b a))
    (terminal_velocity K :: velocity_values (final r)) = true /\
  (PrimFloat.eqb (current_altitude (final r)) 0 = false ->
   outcome r = Impact) /\
  (why_stopped r = GroundReached -> PrimFloat.ltb 0 (remaining r) = true) /\
  (why_stopped r = WaterDepleted -> remaining r = 0%float).
Proof.
  intros Hdt Hdry Htv Hpass Sim.
  destruct (simulate_Reported K fuel r Sim) as (b & L & W & Hh & O & _).
  pose proof (loop_from_reached K fuel 0 (init K) (reached_init K)) as R.
  rewrite L in R. destruct R as (k & s0 & R & C).
  destruct (reached_not_slower K Hdt Hdry Htv Hpass k s0 R)
    as (Iv & Ic & _ & Im).
  unfold hover in Hh. rewrite W in Hh. cbn [bind ret] in Hh.
  injection Hh as Hb.
  destruct C as [(Ew & Es & Eh)|(Eh & Eb)].
  - rewrite Es, Ew in *. clear Es Ew.
    unfold water_remaining in W.
    destruct (current_mass s0) as [m|]; [|discriminate W].
    injection W as W. unfold py_max0 in W. cbn [ltb zero float_arith] in W.
    rewrite Im in W.
    split; [discriminate|]. split; [exact Iv|]. split; [exact Ic|].
    split; [|split; [|discriminate]].
    + intros Ez. rewrite O, <- Hb.
      cbn [leb zero float_arith].
      rewrite (leb_ltb_eqb 0 (current_altitude s0)).
      cbn [ltb zero float_arith] in Eh. rewrite Eh.
      rewrite (eqb_sym 0 (current_altitude s0)), Ez. reflexivity.
    + intros _. rewrite <- W. exact Im.
  - destruct (body_Break K s0 (final r) _ Eb)
      as (_ & Emass & _ & _ & Evv & _ & _ & B).
    destruct B as [(Ew & Em & Ev & _)|(Ew & Em & Ev & _)].
    + unfold water_remaining in W. rewrite Emass in W.
      assert (W2 : py_max0 (sub (mass_after K s0) (dry_mass K)) = remaining r)
        by (unfold ret in W; congruence).
      clear W. rename W2 into W. unfold py_max0 in W.
      change (ltb zero (sub (mass_after K s0) (dry_mass K)))
        with (PrimFloat.ltb 0 (mass_after K s0 - dry_mass K)) in W.
      rewrite (sub_sign _ _ Em) in W.
      rewrite Ew, Ev, Evv.
      split; [discriminate|]. split; [exact Iv|]. split; [exact Ic|].
      split; [|split; [discriminate|]].
      * intros _. rewrite O, <- Hb, <- W.
        rewrite andb_comm. reflexivity.
      * intros _. symmetry. exact W.
    + exfalso.
      destruct (pass_not_slower K Hdt Hdry Hpass k s0 R Eh Em Iv) as (A & _).
      cbn [leb zero float_arith] in Ev. congruence.
Qed.

Lemma no_hover_below_weight_witness :
  exists r : report float,
    simulate narrow_consts 1000 = Reported r /\
    why_stopped r <> HoverAchieved /\
    (why_stopped r = WaterDepleted -> remaining r = 0%float).
Proof.
  assert (E : exists r, simulate narrow_consts 1000 = Reported r)
    by (eexists; vm_compute; reflexivity).
  destruct E as (r & E). exists r. split; [exact E|].
  assert (H : forall (n : nat) (s : vars float),
            reached narrow_consts n s ->
            PrimFloat.ltb 0 (current_altitude s) = true ->
            PrimFloat.leb (mass_after narrow_consts s) (dry_mass narrow_consts)
            = false ->
            PrimFloat.leb (total_thrust narrow_consts)
              (mass_after narrow_consts s * g narrow_consts) = true).
  { intros n s R Eh Em.
    assert (N : forall s1,
              loop narrow_consts 1000 (init narrow_consts) <> Unfinished s1)
      by (intros s1; vm_compute; discriminate).
    pose proof (reached_in_passes narrow_consts 1000 n s N R Eh) as P.
    assert (A : forallb
                  (fun s =>
                     PrimFloat.leb (mass_after narrow_consts s)
                       (dry_mass narrow_consts)
                     || PrimFloat.leb (total_thrust narrow_consts)
                          (mass_after narrow_consts s * g narrow_consts))
                  (passes narrow_consts 1000 (init narrow_consts)) = true)
      by (vm_compute; reflexivity).
    rewrite forallb_forall in A. specialize (A s (nth_error_In _ _ P)).
    rewrite Em in A. exact A. }
  pose proof (no_hover_below_weight narrow_consts 1000 r
                eq_refl eq_refl eq_refl H E) as T.
  split; [exact (proj1 T)|].
  exact (proj2 (proj2 (proj2 (proj2 (proj2 T))))).
Defined.

(** ** Termination *)



(** ** A clock that stops *)

Section Stalled.

Local Open Scope float_scope.

(** [t] stays between 0 and [clock_bound]. *)
Lemma clock_capped (x : float) :
  (0 <=? x) = true -> (x <=? clock_bound) = true ->
  (0 <=? x + dt stalled_consts) = true /\ (x + dt stalled_consts <=? clock_bound) = true.
Proof.
  intros P L. split.
  - exact (proj2 (add_not_below x (dt stalled_consts) P eq_refl)).
  - pose proof (valid_add x (dt stalled_consts)) as Vr.
    pose proof (Prim2SF_valid x) as Vx.
    rewrite leb_spec in *. rewrite add_spec. rewrite Prim2SF_zero in P.
    replace (Prim2SF (dt stalled_consts))
      with (S754_finite false 5444517870735015 (-132)) in *
      by (vm_compute; reflexivity).
    replace (Prim2SF clock_bound)
      with (S754_finite false 6044629098073146 (-78)) in *
      by (vm_compute; reflexivity).
    apply SFadd_capped; auto.
    + vm_compute. reflexivity.
    + vm_compute. intros C. discriminate C.
Qed.

(** The water taken out up to such a [t] is rounded to zero, and the mass
    stays the wet mass. *)
Lemma mass_kept (x : float) :
  (0 <=? x) = true -> (x <=? clock_bound) = true ->
  wet_mass stalled_consts - total_water_mass_ejection_rate stalled_consts * x = wet_mass stalled_consts.
Proof.
  intros P L. apply Prim2SF_inj.
  pose proof (Prim2SF_valid x) as Vx.
  rewrite leb_spec in *. rewrite sub_spec, mul_spec. rewrite Prim2SF_zero in P.
  replace (Prim2SF (total_water_mass_ejection_rate stalled_consts))
    with (S754_finite false 6924000 (-1074)) by (vm_compute; reflexivity).
  replace (Prim2SF (wet_mass stalled_consts))
    with (S754_finite false 6535070915499832 (-43)) by (vm_compute; reflexivity).
  replace (Prim2SF clock_bound)
    with (S754_finite false 6044629098073146 (-78)) in *
    by (vm_compute; reflexivity).
  apply SFleb_zero in P.
  destruct (Prim2SF x) as [sx|sx| |sx mx ex]; try contradiction; subst.
  - reflexivity.
  - discriminate L.
  - rewrite SFleb_value in L by auto. cbn [SV cond_Zopp] in L.
    apply Z.leb_le in L.
    rewrite SFmul_underflow; [reflexivity|reflexivity|exact Vx|].
    pose proof (valid_value _ _ _ Vx) as [Px _].
    apply Z.le_lt_trans
      with (6924000 * 2 ^ (-1074 + 1074)
            * (6044629098073146 * 2 ^ (-78 + 1074)))%Z.
    + apply Z.mul_le_mono_nonneg_l; [vm_compute; discriminate|exact L].
    + vm_compute. reflexivity.
Qed.

Lemma idle_pass (s : vars float) :
  idle s -> exists s1 : vars float, body stalled_consts s = Continue s1 /\ idle s1.
Proof.
  intros (Ev & Eh & P & L).
  destruct (clock_capped (t s) P L) as (P1 & L1).
  assert (Em : mass_after stalled_consts s = wet_mass stalled_consts)
    by (exact (mass_kept (t s + dt stalled_consts) P1 L1)).
  assert (Ea : acceleration_after stalled_consts s = (-9.80665)%float).
  { unfold acceleration_after. rewrite Em. vm_compute. reflexivity. }
  assert (Ev1 : velocity_after stalled_consts s = terminal_velocity stalled_consts).
  { unfold velocity_after. rewrite Ea, Ev. vm_compute. reflexivity. }
  assert (Eh1 : altitude_after stalled_consts s = venting_altitude stalled_consts).
  { unfold altitude_after. rewrite Ev1, Eh. vm_compute. reflexivity. }
  eexists. split.
  - apply body_goes_on.
    + rewrite Em. reflexivity.
    + rewrite Em. reflexivity.
    + rewrite Ev1. reflexivity.
  - unfold idle. cbn [current_velocity current_altitude t].
    repeat split; assumption.
Qed.

(** The loop of [stalled] never ends. *)
Lemma idle_loop (fuel : nat) (s : vars float) :
  idle s -> exists s1 : vars float, loop stalled_consts fuel s = Unfinished s1.
Proof.
  revert s. induction fuel as [|fuel IH]; intros s I.
  - destruct I as (_ & Eh & _). cbn [loop]. rewrite Eh.
    exists s. reflexivity.
  - destruct (idle_pass s I) as (s1 & Eb & I1).
    destruct I as (_ & Eh & _). cbn [loop]. rewrite Eh, Eb.
    change (ltb zero (venting_altitude stalled_consts)) with true. cbn iota.
    exact (IH s1 I1).
Qed.

Lemma idle_init : idle (init stalled_consts).
Proof. repeat split. Qed.

End Stalled.

Section StalledTimes.

Local Open Scope float_scope.

Lemma stalled_elapsed (n : nat) :
  (0 <=? elapsed stalled_consts n) = true /\ (elapsed stalled_consts n <=? clock_bound) = true.
Proof.
  induction n as [|n [P L]]; [split; reflexivity|].
  exact (clock_capped (elapsed stalled_consts n) P L).
Qed.

(** While the recorded times rise strictly, the value of the [n]-th is at
    least [n]. *)
Lemma stalled_values (n : nat) :
  (forall j : nat, (j < n)%nat ->
     (elapsed stalled_consts (S j) <? elapsed stalled_consts (S (S j))) = true) ->
  (Z.of_nat n <= SV (Prim2SF (elapsed stalled_consts (S n))))%Z.
Proof.
  induction n as [|n IH]; intros Step.
  - destruct (stalled_elapsed 1) as (P & _).
    rewrite leb_spec, Prim2SF_zero in P. apply SFleb_zero in P.
    pose proof (Prim2SF_valid (elapsed stalled_consts 1)) as V.
    destruct (Prim2SF (elapsed stalled_consts 1)) as [s|s| |s m e]; cbn [SV]; try lia.
    subst s. cbn [cond_Zopp]. pose proof (valid_value _ _ _ V). lia.
  - assert (I : (Z.of_nat n <= SV (Prim2SF (elapsed stalled_consts (S n))))%Z)
      by (apply IH; intros j Hj; apply Step; lia).
    pose proof (Step n ltac:(lia)) as L.
    destruct (stalled_elapsed (S n)) as (Pa & La).
    destruct (stalled_elapsed (S (S n))) as (Pb & Lb).
    rewrite leb_spec in Pa, La, Pb, Lb. rewrite ltb_spec in L.
    rewrite Prim2SF_zero in Pa, Pb.
    replace (Prim2SF clock_bound)
      with (S754_finite false 6044629098073146 (-78)) in *
      by (vm_compute; reflexivity).
    pose proof (SFltb_grows _ _ _ _ (Prim2SF_valid _) (Prim2SF_valid _)
                  Pa La Pb Lb L).
    lia.
Qed.

Lemma stalled_trace (fuel : nat) :
  exists s : vars float,
    loop stalled_consts fuel (init stalled_consts) = Unfinished s /\
    time_values s = map (elapsed stalled_consts) (seq 1 fuel).
Proof.
  destruct (idle_loop fuel (init stalled_consts) idle_init) as (s & L).
  exists s. split; [exact L|].
  pose proof (loop_from_reached stalled_consts fuel 0 (init stalled_consts) (reached_init stalled_consts)) as R.
  rewrite L in R. destruct R as (R & _).
  exact (proj1 (proj2 (reached_trace stalled_consts _ s R))).
Qed.

(** In the run of [stalled] the recorded times do not rise strictly for
    ever. *)
Lemma stalled_times :
  exists (fuel : nat) (s : vars float),
    loop stalled_consts fuel (init stalled_consts) = Unfinished s /\
    chainb PrimFloat.ltb (time_values s) = false.
Proof.
  destruct (nat_above (SV (Prim2SF clock_bound))) as (n & Hn).
  destruct (stalled_trace (S (S n))) as (s & L & Etv).
  exists (S (S n)), s. split; [exact L|].
  destruct (chainb PrimFloat.ltb (time_values s)) eqn:C; [exfalso|reflexivity].
  assert (Step : forall j : nat, (j < n)%nat ->
            (elapsed stalled_consts (S j) <? elapsed stalled_consts (S (S j))) = true).
  { intros j Hj.
    apply (chainb_nth PrimFloat.ltb (time_values s) j); [exact C| |];
      rewrite Etv, nth_error_map, nth_error_seq.
    - destruct (Nat.ltb_spec j (S (S n))); [reflexivity|lia].
    - destruct (Nat.ltb_spec (S j) (S (S n))); [reflexivity|lia]. }
  pose proof (stalled_values n Step) as V.
  destruct (stalled_elapsed (S n)) as (Pa & La).
  pose proof (Prim2SF_valid (elapsed stalled_consts (S n))) as Va.
  rewrite leb_spec in Pa, La. rewrite Prim2SF_zero in Pa.
  replace (Prim2SF clock_bound)
    with (S754_finite false 6044629098073146 (-78)) in *
    by (vm_compute; reflexivity).
  pose proof (real_between _ _ _ Pa La) as Ra.
  rewrite (SFleb_value _ (S754_finite false 6044629098073146 (-78))
             Va eq_refl Ra eq_refl) in La.
  apply Z.leb_le in La. lia.
Qed.

End StalledTimes.

Section StalledProgram.

Local Open Scope float_scope.

Lemma program_stalled (fuel : nat) :
  program stalled fuel = inr (simulate stalled_consts fuel).
Proof.
  destruct stalled_consts_derived as (c & D & E).
  unfold program. rewrite D. cbn [bind ret]. rewrite E. reflexivity.
Qed.

End StalledProgram.

(** ** Runs of the script in binary64 *)

Section Runs.

Local Open Scope float_scope.

(** Closes a conjunction of closed facts by evaluation, one at a time. *)
Ltac by_running :=
  repeat (apply conj; [vm_compute; reflexivity|]); vm_compute; reflexivity.

(** In the script's own run the sixth recorded time is 0.6, while
    [6 * dt] is 0.6000000000000001. *)
Lemma sixth_time_differs :
  exists (r : report float) (x : float),
    program default 1000 = inr (Reported r) /\
    nth_error (time_values (final r)) 5 = Some x /\
    x = 0.6 /\
    6 * Param.dt default = 0.6000000000000001 /\
    x <> 6 * Param.dt default.
Proof.
  do 2 eexists. split; [vm_compute; reflexivity|].
  split; [vm_compute; reflexivity|].
  split; [reflexivity|]. split; [vm_compute; reflexivity|].
  intros E.
  apply (f_equal (fun z => PrimFloat.eqb z (6 * Param.dt default))) in E.
  vm_compute in E. discriminate E.
Qed.

(** In the script's own run the sixth recorded time is 0.6, while
    [6 * dt] is 0.6000000000000001; and with a nozzle of 1e-161 m and a
    time step of 1e-24 s, which is above zero, the recorded times stop
    rising: after some number of passes two successive entries are not in
    strict order. *)
Lemma recorded_times_off_and_stalling :
  (exists (r : report float) (x : float),
     program default 1000 = inr (Reported r) /\
     nth_error (time_values (final r)) 5 = Some x /\
     x = 0.6 /\
     6 * Param.dt default = 0.6000000000000001 /\
     x <> 6 * Param.dt default) /\
  (0 <? Param.dt stalled) = true /\
  (exists (fuel : nat) (s : vars float),
     program stalled fuel = inr (Running s) /\
     chainb PrimFloat.ltb (time_values s) = false).
Proof.
  split; [exact sixth_time_differs|]. split; [reflexivity|].
  destruct stalled_times as (fuel & s & L & C).
  exists fuel, s. split; [|exact C].
  rewrite program_stalled. unfold simulate. rewrite L. reflexivity.
Qed.

(** Venting from 5 m: the first pass is recorded and ends below the
    ground, so the last recorded time is the final [t], not an earlier
    one. *)
Lemma ground_exit_last_entry_is_final :
  exists (r : report float) (x : float),
    program low_start 1000 = inr (Reported r) /\
    why_stopped r = GroundReached /\
    last_of (time_values (final r)) = Some x /\
    t (final r) = x /\
    ltb x (t (final r)) = false.
Proof.
  do 2 eexists. split; [vm_compute; reflexivity|].
  by_running.
Qed.

(** With four vents the thrust is below the wet weight, and the flight
    from 1000 m ends in a hover; with a nozzle of 5 mm the thrust is below
    the wet weight, and the flight from 100 km ends as an impact with no
    water left. *)
Lemma hover_below_wet_weight :
  (exists (c : Calc.t) (r : report float),
     derive four_vents = inr c /\
     leb (Calc.total_thrust c) (Calc.wet_mass c * Param.g four_vents) = true /\
     program four_vents 1000 = inr (Reported r) /\
     why_stopped r = HoverAchieved /\
     outcome r = Hover) /\
  (exists (c : Calc.t) (r : report float),
     derive narrow = inr c /\
     leb (Calc.total_thrust c) (Calc.wet_mass c * Param.g narrow) = true /\
     program narrow 1000 = inr (Reported r) /\
     why_stopped r = WaterDepleted /\
     outcome r = Impact /\
     remaining r = 0).
Proof.
  split.
  - do 2 eexists. split; [vm_compute; reflexivity|]. by_running.
  - do 2 eexists. split; [vm_compute; reflexivity|]. by_running.
Qed.



(** With a tube 0.2 m high the water volume is negative; the calculated
    parameters go through, the loop runs and is left as water-depleted, the
    flight is classified, and the run stops at line 118 with a NameError. *)
Lemma negative_water_volume_not_rejected :
  exists (c : Calc.t) (s : vars float),
    derive short_tube = inr c /\
    ltb (Calc.water_volume c) 0 = true /\
    loop (consts_of short_tube c) 1000 (init (consts_of short_tube c))
    = Done WaterDepleted s /\
    hover (consts_of short_tube c) s = inr false /\
    program short_tube 1000 = inr (Failed NameError).
Proof.
  do 2 eexists. split; [vm_compute; reflexivity|].
  by_running.
Qed.

(** ** Ground contact at altitude zero *)

(** C2.  With the venting altitude set to the distance the first pass
    covers, the loop stops at the [while] test with altitude exactly 0 and
    a velocity of 98.7 m/s downwards, water remains, and the flight is
    reported as a hover. *)
Theorem ground_contact_reported_as_hover :
  exists r : report float,
    program grazing 1000 = inr (Reported r) /\
    why_stopped r = GroundReached /\
    current_altitude (final r) = 0 /\
    current_velocity (final r) = 98.749810838146175 /\
    leb (current_velocity (final r)) 0 = false /\
    outcome r = Hover.
Proof.
  eexists. split; [vm_compute; reflexivity|].
  by_running.
Qed.

(** The script's own run in binary64: the loop is left for hover in its
    47th pass after 46 recorded ones, 5.35 m above the ground, and along
    the trace the times and the accelerations rise and the altitudes fall,
    strictly. *)
Lemma default_flight :
  exists r : report float,
    program default 47 = inr (Reported r) /\
    why_stopped r = HoverAchieved /\
    outcome r = Hover /\
    current_altitude (final r) = 5.3456845742942072 /\
    List.length (time_values (final r)) = 46%nat /\
    chainb ltb (time_values (final r)) = true /\
    chainb ltb (acceleration_values (final r)) = true /\
    chainb (fun a b : float => ltb b a) (altitude_values (final r)) = true.
Proof.
  eexists. split; [vm_compute; reflexivity|].
  by_running.
Qed.

End Runs.

Lemma py_div_inl {F : Type} `{Arith F} (x y : F) (e : exn) :
  py_div x y = inl e -> e = ZeroDivisionError.
Proof.
  unfold py_div, raise, ret. destruct (eqb y zero); [|discriminate].
  intros [= <-]. reflexivity.
Qed.

Lemma py_sqrt_inl (x : float) (e : exn) : py_sqrt x = inl e -> e = ValueError.
Proof.
  unfold py_sqrt, raise, ret.
  destruct (is_nan (PrimFloat.sqrt x) && negb (is_nan x)); [|discriminate].
  intros [= <-]. reflexivity.
Qed.

Lemma py_sq_inl (x : float) (e : exn) : py_sq x = inl e -> e = OverflowError.
Proof.
  unfold py_sq, raise, ret.
  destruct (is_infinity (x * x) && is_finite x); [|discriminate].
  intros [= <-]. reflexivity.
Qed.

Lemma derive_inl (p : Param.t) (e : exn) :
  derive p = inl e ->
  e = ZeroDivisionError \/ e = ValueError \/ e = OverflowError.
Proof.
  unfold derive. intros E.
  repeat match type of E with
         | bind ?m _ = _ =>
             let q := fresh "q" in
             let Q := fresh "Q" in
             destruct m as [q|q] eqn:Q; cbn [bind] in E;
             [injection E as ->;
              first [ apply py_div_inl in Q; auto
                    | apply py_sqrt_inl in Q; auto
                    | apply py_sq_inl in Q; auto ] |]
         end.
  discriminate E.
Qed.

Lemma simulate_Failed {F : Type} `{Arith F} (K : consts F) (fuel : nat)
    (e : exn) :
  simulate K fuel = Failed e -> e = ZeroDivisionError \/ e = NameError.
Proof.
  unfold simulate.
  pose proof (loop_from_reached K fuel 0 (init K) (reached_init K)) as R.
  destruct (loop K fuel (init K)) as [why s|e1|s]; [| |discriminate].
  - unfold hover. unfold water_remaining, peak_deceleration.
    destruct (current_mass s); cbn; [|intros [= <-]; auto].
    destruct (acceleration s); cbn; [|intros [= <-]; auto].
    destruct (py_div f0 (g K)) eqn:D; cbn; [|discriminate].
    intros [= <-]. left. exact (py_div_inl _ _ _ D).
  - intros [= <-]. destruct R as (k & s0 & _ & _ & Eb). left.
    unfold body in Eb.
    destruct (leb _ _); [discriminate|].
    destruct (py_div _ _) eqn:D; [|destruct (leb _ _); discriminate].
    injection Eb as <-. exact (py_div_inl _ _ _ D).
Qed.

(** ** Failures *)

(** C6, as the code has it.  No run raises a ConfigurationError, whatever
    the sign of the water volume.  A run that stops before the simulation
    stops with ZeroDivisionError, ValueError or OverflowError from the
    arithmetic of the calculated parameters; a run that stops later went
    through the calculated parameters and stops with ZeroDivisionError or
    NameError. *)
Theorem no_configuration_error (p : Param.t) (fuel : nat) (e : exn) :
  program p fuel = inl e \/ program p fuel = inr (Failed e) ->
  exn_name e <> "ConfigurationError"%string /\
  (program p fuel = inl e ->
   derive p = inl e /\
   (e = ZeroDivisionError \/ e = ValueError \/ e = OverflowError)) /\
  (program p fuel = inr (Failed e) ->
   (exists c : Calc.t, derive p = inr c) /\
   (e = ZeroDivisionError \/ e = NameError)).
Proof.
  intros _. split; [destruct e; discriminate|]. unfold program. split.
  - destruct (derive p) as [e1|c] eqn:D; cbn; [|discriminate].
    intros [= ->]. split; [reflexivity|]. exact (derive_inl p e D).
  - destruct (derive p) as [e1|c] eqn:D; cbn; [discriminate|].
    intros [= S]. split; [exists c; reflexivity|].
    exact (simulate_Failed _ fuel e S).
Qed.

Lemma no_configuration_error_witness :
  program short_tube 1000 = inr (Failed NameError) /\
  exn_name NameError <> "ConfigurationError"%string.
Proof.
  assert (E : program short_tube 1000 = inr (Failed NameError))
    by (vm_compute; reflexivity).
  split; [exact E|].
  exact (proj1 (no_configuration_error short_tube 1000 NameError (or_intror E))).
Defined.

(** * Further properties of the loop and the report *)

(** ** Runs that end before any force is computed *)

(** X1.  When the venting altitude is not above 0 the [while] test fails at
    once: no pass runs, the state is the initial one, and the script stops
    at line 102 with a NameError, because [current_mass] was never
    assigned. *)
Theorem no_pass_without_altitude {F : Type} `{Arith F}
    (K : consts F) (fuel : nat) :
  ltb zero (venting_altitude K) = false ->
  loop K fuel (init K) = Done GroundReached (init K) /\
  simulate K fuel = Failed NameError.
Proof.
  intros Eh.
  assert (L : loop K fuel (init K) = Done GroundReached (init K)).
  { destruct fuel; cbn [loop init current_altitude]; rewrite Eh; reflexivity. }
  split; [exact L|]. unfold simulate. rewrite L. reflexivity.
Qed.

Lemma no_pass_without_altitude_witness :
  simulate grounded 3 = Failed NameError.
Proof.
  exact (proj2 (no_pass_without_altitude grounded 3 eq_refl)).
Defined.

(** X2.  When the first pass already finds the mass at or below the dry
    mass, the loop is left as water-depleted with empty lists and with
    [acceleration] never assigned; lines 102 and 103 go through, and the
    script stops at line 118 with a NameError. *)
Theorem first_pass_depletion_fails_report {F : Type} `{Arith F}
    (K : consts F) (fuel : nat) :
  ltb zero (venting_altitude K) = true ->
  leb (sub (wet_mass K)
         (mul (total_water_mass_ejection_rate K) (add zero (dt K))))
      (dry_mass K) = true ->
  (exists s : vars F,
     loop K (S fuel) (init K) = Done WaterDepleted s /\
     time_values s = [] /\
     acceleration s = None /\
     (exists w : F, water_remaining K s = inr w) /\
     (exists b : bool, hover K s = inr b)) /\
  simulate K (S fuel) = Failed NameError.
Proof.
  intros Eh Em.
  pose proof (body_Depleted K (init K) Em) as Eb.
  assert (L : loop K (S fuel) (init K)
              = Done WaterDepleted
                  {| t := time_after K (init K);
                     current_velocity := current_velocity (init K);
                     current_altitude := current_altitude (init K);
                     current_mass := Some (mass_after K (init K));
                     acceleration := acceleration (init K);
                     time_values := time_values (init K);
                     altitude_values := altitude_values (init K);
                     velocity_values := velocity_values (init K);
                     water_remaining_values := water_remaining_values (init K);
                     acceleration_values := acceleration_values (init K) |}).
  { cbn [loop]. cbn [init current_altitude]. rewrite Eh.
    rewrite Eb. reflexivity. }
  split.
  - eexists. split; [exact L|]. cbn.
    split; [reflexivity|]. split; [reflexivity|].
    split; eexists; reflexivity.
  - unfold simulate. rewrite L. reflexivity.
Qed.

Lemma first_pass_depletion_fails_report_witness :
  simulate dry_tank 3 = Failed NameError.
Proof.
  exact (proj2 (first_pass_depletion_fails_report dry_tank 2 eq_refl eq_refl)).
Defined.

(** X3.  With [g] equal to 0 the division of line 118 fails, so no run is
    reported, however the loop ends. *)
Theorem zero_gravity_never_reports {F : Type} `{Arith F}
    (K : consts F) (fuel : nat) (r : report F) :
  eqb (g K) zero = true ->
  simulate K fuel <> Reported r.
Proof.
  intros Eg S.
  destruct (simulate_Reported K fuel r S) as (_ & _ & _ & _ & _ & P).
  unfold peak_deceleration, py_div in P. rewrite Eg in P.
  destruct (acceleration (final r)); discriminate P.
Qed.

Lemma zero_gravity_never_reports_witness :
  simulate weightless 100 = Failed ZeroDivisionError.
Proof.
  destruct (simulate weightless 100) as [r|e|s] eqn:E.
  - exfalso. exact (zero_gravity_never_reports weightless 100 r eq_refl E).
  - vm_compute in E. injection E as <-. reflexivity.
  - vm_compute in E. discriminate E.
Defined.

(** X4.  When the loop stops at the [while] test after at least one pass,
    the last entry of the trace is the final state: its time, its
    velocity, a tenth of its altitude and its acceleration, and that
    altitude is not above 0. *)
Theorem ground_exit_records_final_state {F : Type} `{Arith F}
    (K : consts F) (fuel : nat) (s : vars F) :
  loop K fuel (init K) = Done GroundReached s ->
  time_values s <> [] ->
  ltb zero (current_altitude s) = false /\
  last_of (time_values s) = Some (t s) /\
  last_of (velocity_values s) = Some (current_velocity s) /\
  last_of (altitude_values s) = Some (quot (current_altitude s) ten) /\
  last_of (acceleration_values s) = acceleration s.
Proof.
  intros L N.
  pose proof (loop_from_reached K fuel 0 (init K) (reached_init K)) as R.
  rewrite L in R. destruct R as (k & s0 & R & C).
  destruct C as [(_ & -> & Eh)|(_ & Eb)].
  - destruct (reached_trace K k s0 R) as (_ & Etv & _ & _ & _ & _ & Ia & Last).
    assert (Nk : k <> 0).
    { intros ->. apply N. rewrite Etv. reflexivity. }
    destruct (Last Nk) as (A & B & C).
    repeat split; try assumption. symmetry. exact Ia.
  - destruct (body_Break K s0 s _ Eb) as (_ & _ & _ & _ & _ & _ & _ & W).
    destruct W as [(W & _)|(W & _)]; discriminate W.
Qed.

Lemma ground_exit_records_final_state_witness :
  exists s : vars float,
    loop weak 100 (init weak) = Done GroundReached s /\
    last_of (velocity_values s) = Some (current_velocity s).
Proof.
  assert (E : exists s, loop weak 100 (init weak) = Done GroundReached s /\
                        time_values s <> [])
    by (eexists; split; [vm_compute; reflexivity|discriminate]).
  destruct E as (s & E & N). exists s. split; [exact E|].
  exact (proj1 (proj2 (proj2 (ground_exit_records_final_state weak 100 s E N)))).
Defined.

(** ** What the recorded water and acceleration depend on *)

(** X5.  However the loop ends, the water and the acceleration recorded
    for pass [k] are functions of [k] alone, through the mass
    [wet_mass - rate * t] at the [k]-th value of [t]: they do not depend on
    velocity, altitude or the venting altitude. *)
Theorem records_by_pass_number {F : Type} `{Arith F}
    (K : consts F) (fuel : nat) (s : vars F) :
  state_of (loop K fuel (init K)) = Some s ->
  exists n : nat,
    List.length (time_values s) = n /\
    water_remaining_values s
    = map (fun k => quot (py_max0 (sub (mass_at K k) (dry_mass K))) ten)
          (seq 1 n) /\
    acceleration_values s
    = map (fun k => quot (sub (total_thrust K) (mul (mass_at K k) (g K)))
                         (mass_at K k))
          (seq 1 n).
Proof.
  intros E.
  destruct (final_lists K fuel s E) as (n & s0 & R & Et & _ & _ & Ew & Ea).
  destruct (reached_by_pass_number K n s0 R) as (Iw & Ia).
  destruct (reached_trace K n s0 R) as (_ & Etv & _).
  exists n. rewrite Et, Ew, Ea, Etv, length_map, length_seq.
  repeat split; assumption.
Qed.

Lemma records_by_pass_number_witness :
  exists (s : vars float) (n : nat),
    state_of (loop default_consts 47 (init default_consts)) = Some s /\
    acceleration_values s
    = map (fun k => quot (sub (total_thrust default_consts)
                            (mul (mass_at default_consts k) (g default_consts)))
                         (mass_at default_consts k))
          (seq 1 n).
Proof.
  assert (E : exists s,
             state_of (loop default_consts 47 (init default_consts)) = Some s)
    by (eexists; vm_compute; reflexivity).
  destruct E as (s & E).
  destruct (records_by_pass_number default_consts 47 s E) as (n & _ & _ & A).
  exists s, n. split; [exact E|exact A].
Defined.

(** ** What the flight depends on *)

Section Dependence.

Local Open Scope float_scope.

(** Unfolds one run of the calculated parameters that went through. *)
Ltac derived E :=
  unfold derive in E;
  repeat match type of E with
         | bind ?m _ = _ =>
             let q := fresh "q" in
             let Q := fresh "Q" in
             destruct m as [|q] eqn:Q; cbn [bind] in E; [discriminate|]
         end;
  injection E as <-.

(** X16.  The gas constant, the standard atmospheric pressure and the drop
    altitude are for display only: when the calculated parameters go
    through with them and with other values in their place, the loop gets
    the same constants, and the whole run, loop and report, is the same. *)
Theorem display_inputs_do_not_steer (p : Param.t) (gas standard drop : float)
    (c c1 : Calc.t) (fuel : nat) :
  derive p = inr c ->
  derive (with_display_inputs p gas standard drop) = inr c1 ->
  consts_of (with_display_inputs p gas standard drop) c1 = consts_of p c /\
  program (with_display_inputs p gas standard drop) fuel = program p fuel.
Proof.
  intros E E1.
  assert (C : consts_of (with_display_inputs p gas standard drop) c1
              = consts_of p c).
  { derived E. derived E1. cbn in *.
    repeat match goal with
           | A : ?x = inr ?a, B : ?x = inr ?b |- _ =>
               rewrite A in B; injection B as <-
           end.
    reflexivity. }
  split; [exact C|].
  unfold program. rewrite E, E1. cbn [bind]. rewrite C. reflexivity.
Qed.

Lemma display_inputs_do_not_steer_witness :
  program (with_display_inputs default 1 1 0) 47 = program default 47.
Proof.
  assert (E : exists c c1,
             derive default = inr c /\
             derive (with_display_inputs default 1 1 0) = inr c1)
    by (do 2 eexists; split; vm_compute; reflexivity).
  destruct E as (c & c1 & E & E1).
  exact (proj2 (display_inputs_do_not_steer default 1 1 0 c c1 47 E E1)).
Defined.

(** X17.  The air density and the paddles act on the flight through the
    terminal velocity alone: when the calculated parameters go through
    with other values in their place, the loop gets the same masses,
    thrust, ejection rate, [g], [dt] and venting altitude, and only its
    initial velocity can differ. *)
Theorem drag_inputs_only_set_initial_velocity (p : Param.t)
    (air width length paddles : float) (c c1 : Calc.t) :
  derive p = inr c ->
  derive (with_drag_inputs p air width length paddles) = inr c1 ->
  consts_of (with_drag_inputs p air width length paddles) c1
  = {| wet_mass := Calc.wet_mass c;
       dry_mass := Param.dry_mass p;
       g := Param.g p;
       total_thrust := Calc.total_thrust c;
       total_water_mass_ejection_rate := Calc.total_water_mass_ejection_rate c;
       dt := Param.dt p;
       terminal_velocity := Calc.terminal_velocity c1;
       venting_altitude := Param.venting_altitude p |} /\
  Calc.water_volume c1 = Calc.water_volume c /\
  Calc.water_exit_velocity c1 = Calc.water_exit_velocity c.
Proof.
  intros E E1. derived E. derived E1. cbn in *.
  repeat match goal with
         | A : ?x = inr ?a, B : ?x = inr ?b |- _ =>
             rewrite A in B; injection B as <-
         end.
  repeat split; reflexivity.
Qed.

Lemma drag_inputs_only_set_initial_velocity_witness :
  exists c c1 : Calc.t,
    derive default = inr c /\
    derive (with_drag_inputs default 1.2 1 1 2) = inr c1 /\
    Calc.water_exit_velocity c1 = Calc.water_exit_velocity c.
Proof.
  assert (E : exists c c1,
             derive default = inr c /\
             derive (with_drag_inputs default 1.2 1 1 2) = inr c1)
    by (do 2 eexists; split; vm_compute; reflexivity).
  destruct E as (c & c1 & E & E1). exists c, c1.
  split; [exact E|]. split; [exact E1|].
  exact (proj2 (proj2
           (drag_inputs_only_set_initial_velocity default 1.2 1 1 2 c c1 E E1))).
Defined.

End Dependence.

(** ** The velocity the loop starts from *)

Section InitialVelocity.

Local Open Scope float_scope.

(** A square root is NaN, a zero, or above zero. *)
Lemma sqrt_sign (x : float) :
  is_nan (sqrt x) = true \/ (sqrt x =? 0) = true \/ (0 <? sqrt x) = true.
Proof.
  unfold is_nan. rewrite !eqb_spec, ltb_spec, sqrt_spec.
  change (Prim2SF 0) with (S754_zero false).
  unfold SF64sqrt, SFsqrt.
  destruct (Prim2SF x) as [s|[|]| |[|] m e]; cbn; auto.
  destruct (SFsqrt_core_binary prec emax (Zpos m) e) as [[mz ez] lz].
  pose proof (binary_round_aux_sign false mz ez lz) as S.
  destruct (binary_round_aux prec emax false mz ez lz) as [s1|s1| |s1 m1 e1];
    try subst s1; cbn; auto.
Qed.

(** Halving a zero gives a zero. *)
Lemma half_of_zero (x : float) : (x =? 0) = true -> (0.5 * x =? 0) = true.
Proof.
  rewrite !eqb_spec, mul_spec.
  change (Prim2SF 0) with (S754_zero false).
  replace (Prim2SF 0.5) with (S754_finite false 4503599627370496 (-53))
    by (vm_compute; reflexivity).
  destruct (Prim2SF x) as [s|[|]| |[|] m e]; cbn; try discriminate; auto.
Qed.

(** X18.  Whenever the calculated parameters go through, the velocity the
    loop starts from is above zero or NaN: a terminal velocity of zero
    stops the script at line 69 with a ZeroDivisionError, and a square root
    is never negative. *)
Theorem loop_starts_falling (p : Param.t) (c : Calc.t) :
  derive p = inr c ->
  (Calc.terminal_velocity c =? 0) = false /\
  ((0 <? Calc.terminal_velocity c) = true \/
   is_nan (Calc.terminal_velocity c) = true).
Proof.
  unfold derive. intros E.
  repeat match type of E with
         | bind ?m _ = _ =>
             let q := fresh "q" in
             let Q := fresh "Q" in
             destruct m as [|q] eqn:Q; cbn [bind] in E; [discriminate|]
         end.
  injection E as <-. cbn.
  match goal with
  | S : py_sqrt ?r = inr ?v, D : py_div _ (0.5 * ?v) = inr _ |- _ =>
      apply py_sqrt_inr in S; unfold py_div in D;
      destruct (eqb (0.5 * v) zero) eqn:Z; [discriminate D|];
      assert (N : (v =? 0) = false)
        by (destruct (v =? 0) eqn:V; [|reflexivity];
            apply half_of_zero in V; cbn in Z; congruence);
      split; [exact N|];
      destruct (sqrt_sign r) as [A|[A|A]]; rewrite <- S in A;
      [right; exact A|congruence|left; exact A]
  end.
Qed.

Lemma loop_starts_falling_witness :
  exists c : Calc.t,
    derive default = inr c /\ (0 <? Calc.terminal_velocity c) = true.
Proof.
  assert (E : exists c, derive default = inr c /\
                        is_nan (Calc.terminal_velocity c) = false)
    by (eexists; split; vm_compute; reflexivity).
  destruct E as (c & E & N). exists c. split; [exact E|].
  destruct (proj2 (loop_starts_falling default c E)) as [A|A];
    [exact A|congruence].
Defined.

End InitialVelocity.
